(** * terraingen: tile naming, area resolution, archive assembly, retention

    A shallow embedding of [app_fastapi.py].  Python [int]s are [Z];
    Python [float]s (latitudes, longitudes, clock readings) are exact
    rationals [Q]: the scans only add [1.0], multiply by constants,
    compare and take [math.floor].  Comparison and floor are exact in
    binary64; a sum is exact when it is itself a binary64 number, which
    holds for the steps from bounds of at most 44 fractional bits
    ([fixed44]), whole degrees among them.  From other bounds the
    float sum may round and the code visit other cells than the model:
    the statements about which cells a rectangle scan visits are made
    for exact steps, and every concrete run below uses such values.
    The file system, the remote origin and the clock are explicit: a
    handler is a function from the world before the call to an outcome
    and the world after it. *)

From Stdlib Require Import ZArith QArith Qround Lqa Floats String Ascii List Lia DecimalString.
From Stdlib Require Import Strings.Byte.
From stdpp Require Import gmap strings list.

Open Scope Z_scope.

(** ** Python string helpers *)

Module PyStr.

(** [str(n)] for a non-negative [int]. *)
Definition str_of_uint (n : Z) : string :=
  NilZero.string_of_uint (N.to_uint (Z.to_N n)).

(** The conversion [%0<w>u]: decimal, padded with zeros on the left up
    to [w] characters, never truncated. *)
Definition fmt_0u (w : nat) (n : Z) : string :=
  let s := str_of_uint n in
  string_of_list_ascii (replicate (w - String.length s)%nat "0"%char)
    +:+ s.

(** [os.path.join(a, b)] for a relative [b] and an [a] without a
    trailing separator. *)
Definition path_join (a b : string) : string := a +:+ "/" +:+ b.

(** [os.path.basename]: what follows the last separator. *)
Fixpoint basename_aux (s acc : string) : string :=
  match s with
  | EmptyString => acc
  | String c s' =>
      if Ascii.eqb c "/"%char then basename_aux s' EmptyString
      else basename_aux s' (acc +:+ String c EmptyString)
  end.

Definition basename (s : string) : string := basename_aux s EmptyString.

(** The slice [s[:-k]]. *)
Definition drop_last (k : nat) (s : string) : string :=
  String.substring 0 (String.length s - k) s.

End PyStr.

(** ** TileNamer *)

(** [getDatFile(lat, lon)], called on integers only
    ([int(lat)] is then the identity). *)
Definition getDatFile (lat lon : Z) : string :=
  let NS := if lat <? 0 then "S"%char else "N"%char in
  let EW := if lon <? 0 then "W"%char else "E"%char in
  String NS (PyStr.fmt_0u 2 (Z.min (Z.abs lat) 99)
    +:+ String EW (PyStr.fmt_0u 3 (Z.min (Z.abs lon) 999) +:+ ".DAT.gz")).

(** The name as the specification words it: hemisphere letter, two
    digits of the clamped latitude, hemisphere letter, three digits of
    the clamped longitude, fixed suffix. *)
Module TileNamer.

Definition digit (d : Z) : ascii := ascii_of_N (48 + Z.to_N d).

Definition hemisphere_NS (lat : Z) : ascii :=
  if 0 <=? lat then "N"%char else "S"%char.

Definition hemisphere_EW (lon : Z) : ascii :=
  if 0 <=? lon then "E"%char else "W"%char.

Definition two_digits (n : Z) : string :=
  String (digit (n / 10)) (String (digit (n mod 10)) EmptyString).

Definition three_digits (n : Z) : string :=
  String (digit (n / 100)) (two_digits (n mod 100)).

Definition name (lat lon : Z) : string :=
  String (hemisphere_NS lat) (two_digits (Z.min (Z.abs lat) 99))
    +:+ String (hemisphere_EW lon) (three_digits (Z.min (Z.abs lon) 999))
    +:+ ".DAT.gz".

End TileNamer.

(** ** AreaResolver *)

(** [range(a, b)]. *)
Definition py_range (a b : Z) : list Z :=
  map (fun i => a + Z.of_nat i) (seq 0 (Z.to_nat (b - a))).

(** [list(dict.fromkeys(l))]: first occurrences, in order. *)
Fixpoint fromkeys_from (seen l : list string) : list string :=
  match l with
  | [] => []
  | x :: l' =>
      if bool_decide (x ∈ seen) then fromkeys_from seen l'
      else x :: fromkeys_from (x :: seen) l'
  end.

Definition dict_fromkeys (l : list string) : list string := fromkeys_from [] l.

(** The three locals both scans update.  [done] is the Python set, kept
    as the list of its elements, newest first: the code only tests
    membership and adds an element it has just found absent. *)
Record scan_state := ScanState {
  filelist : list string;
  done : list (Z * Z);
  outsideLat : option bool
}.

Definition scan_init : scan_state :=
  {| filelist := []; done := []; outsideLat := None |}.

(** What follows a failed [tag in done] test in both handlers:
    [done.add(tag)] and the test against the 84 degree limit. *)
Definition record_tag (tile_path : string) (lat_int lon_int : Z) (st : scan_state)
  : scan_state :=
  let done' := (lat_int, lon_int) :: done st in
  if Z.abs lat_int <=? 84 then
    {| filelist := filelist st ++ [PyStr.path_join tile_path (getDatFile lat_int lon_int)];
       done := done';
       outsideLat := outsideLat st |}
  else
    {| filelist := filelist st; done := done'; outsideLat := Some true |}.

(** One pass of the loop body of [generate_api] from [tag = ...] on;
    the first branch is its [continue]. *)
Definition visit (tile_path : string) (lat_int lon_int : Z) (st : scan_state)
  : scan_state :=
  if bool_decide ((lat_int, lon_int) ∈ done st) then st
  else record_tag tile_path lat_int lon_int st.

Section Circle.

(** [terrain_gen.add_offset] is imported, not defined in this file: the
    scan is read for every function of this type. *)
Variable add_offset : Q -> Q -> Q -> Q -> string -> Q * Q.

(** The cell of one offset pair: lines 224 to 226.  The factors [1e7],
    [1000.0] and [1.0e-7] are taken at their decimal value. *)
Definition circle_cell (lat lon : Q) (dx dy : Z) : Z * Z :=
  let '(lat2, lon2) :=
    add_offset (lat * inject_Z 10000000) (lon * inject_Z 10000000)
               (inject_Z dx * inject_Z 1000) (inject_Z dy * inject_Z 1000) "4.1" in
  (Qfloor (lat2 * (1 # 10000000)), Qfloor (lon2 * (1 # 10000000))).

Definition circle_row (tile_path : string) (lat lon : Q) (radius dx : Z)
  (st : scan_state) : scan_state :=
  fold_left (fun st dy =>
               let '(lat_int, lon_int) := circle_cell lat lon dx dy in
               visit tile_path lat_int lon_int st)
            (py_range (- radius) radius) st.

(** The nested [for] loops of [generate_api]. *)
Definition circle_scan (tile_path : string) (lat lon : Q) (radius : Z) : scan_state :=
  fold_left (fun st dx => circle_row tile_path lat lon radius dx st)
            (py_range (- radius) radius) scan_init.

End Circle.

(** The inner [while lon <= max_lon] loop of [generate_rectangle_api];
    [None] when the fuel runs out before the test fails.  The step
    [lon += lon_step] is the rational sum, which is the float sum
    whenever that is exact. *)
Fixpoint rect_row (fuel : nat) (tile_path : string) (lat lon max_lon : Q)
  (st : scan_state) : option scan_state :=
  match fuel with
  | O => None
  | S fuel' =>
      if Qle_bool lon max_lon then
        let lat_int := Qfloor lat in
        let lon_int := Qfloor lon in
        if bool_decide ((lat_int, lon_int) ∈ done st) then
          rect_row fuel' tile_path lat (lon + 1)%Q max_lon st
        else
          rect_row fuel' tile_path lat (lon + 1)%Q max_lon
                   (record_tag tile_path lat_int lon_int st)
      else Some st
  end.

(** The outer [while lat <= max_lat] loop: [n] bounds its own passes,
    every inner loop starts with the whole [fuel].  As in [rect_row],
    [lat += lat_step] is the rational sum. *)
Fixpoint rect_rows (n fuel : nat) (tile_path : string)
  (lat max_lat min_lon max_lon : Q) (st : scan_state) : option scan_state :=
  match n with
  | O => None
  | S n' =>
      if Qle_bool lat max_lat then
        match rect_row fuel tile_path lat min_lon max_lon st with
        | None => None
        | Some st' => rect_rows n' fuel tile_path (lat + 1)%Q max_lat min_lon max_lon st'
        end
      else Some st
  end.

Definition rect_scan (fuel : nat) (tile_path : string)
  (min_lat max_lat min_lon max_lon : Q) : option scan_state :=
  rect_rows fuel fuel tile_path min_lat max_lat min_lon max_lon scan_init.

(** Iterations of [x = lo; while x <= hi: x += 1.0], plus the failing
    test: fuel that lets the loop end on its own. *)
Definition loop_fuel (lo hi : Q) : nat := S (Z.to_nat (Qfloor (hi - lo) + 1)).

Definition rect_fuel (min_lat max_lat min_lon max_lon : Q) : nat :=
  Nat.max (loop_fuel min_lat max_lat) (loop_fuel min_lon max_lon).

(** ** The world: disk, origin, clock *)

Inductive file_data :=
| Raw (b : list byte)
| ZipArchive (entries : list (string * list byte)).

Record file := File { st_mtime : Q; data : file_data }.

(** [disk] maps a path to its file; [requested] lists the URLs asked of
    the remote origin, newest first. *)
Record world := World {
  disk : gmap string file;
  requested : list string
}.

Inductive exn :=
| FileNotFoundError (path : string)
| URLError (url : string)
| BadGzipFile (path : string)
| BadZipFile (path : string)
| UnboundLocalError (var : string)
| HTTPException (status_code : Z) (detail : exn).

Inductive outcome (A : Type) :=
| Ret (a : A)
| Raise (e : exn).

Arguments Ret {A} a.
Arguments Raise {A} e.

(** A Python procedure: the world goes in, a value or an exception and
    the world as it was left come out. *)
Definition M (A : Type) : Type := world -> outcome A * world.

Definition ret {A} (a : A) : M A := fun w => (Ret a, w).

Definition raise {A} (e : exn) : M A := fun w => (Raise e, w).

Definition bind {A B} (m : M A) (k : A -> M B) : M B :=
  fun w =>
    match m w with
    | (Ret a, w') => k a w'
    | (Raise e, w') => (Raise e, w')
    end.

(** [try: m except Exception as e: h e]. *)
Definition try_except {A} (m : M A) (h : exn -> M A) : M A :=
  fun w =>
    match m w with
    | (Ret a, w') => (Ret a, w')
    | (Raise e, w') => h e w'
    end.

Declare Scope py_scope.
Delimit Scope py_scope with py.

Notation "x <- m ;; k" := (bind m (fun x => k))
  (at level 100, m at next level, right associativity) : py_scope.
Notation "m ;;; k" := (bind m (fun _ => k))
  (at level 100, right associativity) : py_scope.

Open Scope py_scope.

(** [for x in l: body x]. *)
Fixpoint for_each {A} (l : list A) (body : A -> M unit) : M unit :=
  match l with
  | [] => ret tt
  | x :: l' => body x ;;; for_each l' body
  end.

Definition set_disk (d : gmap string file) (w : world) : world :=
  {| disk := d; requested := requested w |}.

(** [a < b] on floats. *)
Definition Qlt_bool (a b : Q) : bool := negb (Qle_bool b a).

(** ** Requests and responses (the pydantic models) *)

Module GenerateRequest.
Record t := Make { lat : Q; lon : Q; radius : Z; version : Z }.

(** The [Field] bounds and [validate_version]. *)
Definition valid (r : t) : Prop :=
  (inject_Z (-90) <= lat r)%Q /\ (lat r <= inject_Z 90)%Q /\
  (inject_Z (-180) <= lon r)%Q /\ (lon r <= inject_Z 180)%Q /\
  1 <= radius r <= 400 /\ (version r = 1 \/ version r = 3).
End GenerateRequest.

Module GenerateRectangleRequest.
Record t := Make { min_lat : Q; max_lat : Q; min_lon : Q; max_lon : Q; version : Z }.

(** The [Field] bounds, [validate_version], [validate_lat_range] and
    [validate_lon_range]. *)
Definition valid (r : t) : Prop :=
  (inject_Z (-90) <= min_lat r)%Q /\ (min_lat r <= inject_Z 90)%Q /\
  (inject_Z (-90) <= max_lat r)%Q /\ (max_lat r <= inject_Z 90)%Q /\
  (inject_Z (-180) <= min_lon r)%Q /\ (min_lon r <= inject_Z 180)%Q /\
  (inject_Z (-180) <= max_lon r)%Q /\ (max_lon r <= inject_Z 180)%Q /\
  (version r = 1 \/ version r = 3) /\
  (min_lat r < max_lat r)%Q /\ (min_lon r < max_lon r)%Q.
End GenerateRectangleRequest.

Record GenerateResponse := Response {
  success : bool;
  uuid : string;
  download_url : option string;
  outside_lat : option bool;
  error : option string
}.

(** The module-level paths: the artifact directory, the two tile roots
    and the two optional origins. *)
Record config := Config {
  output_path : string;
  tile_path1 : string;
  tile_path3 : string;
  url_path1 : option string;
  url_path3 : option string
}.

(** The two kinds of area request. *)
Inductive AreaRequest :=
| Circle (r : GenerateRequest.t)
| Rectangle (r : GenerateRectangleRequest.t).

Definition area_version (a : AreaRequest) : Z :=
  match a with
  | Circle r => GenerateRequest.version r
  | Rectangle r => GenerateRectangleRequest.version r
  end.

(** A circle without radius, a rectangle with inverted bounds. *)
Definition degenerate (a : AreaRequest) : Prop :=
  match a with
  | Circle r => GenerateRequest.radius r <= 0
  | Rectangle r =>
      (GenerateRectangleRequest.max_lat r < GenerateRectangleRequest.min_lat r)%Q \/
      (GenerateRectangleRequest.max_lon r < GenerateRectangleRequest.min_lon r)%Q
  end.

(** Fuel for the scan of an area: the circle's [for] loops need none. *)
Definition area_fuel (a : AreaRequest) : nat :=
  match a with
  | Circle _ => 0%nat
  | Rectangle r =>
      rect_fuel (GenerateRectangleRequest.min_lat r) (GenerateRectangleRequest.max_lat r)
                (GenerateRectangleRequest.min_lon r) (GenerateRectangleRequest.max_lon r)
  end.

(** ** compressFiles, the sweep and the two handlers *)

Section Server.

Variable cfg : config.

(** [urllib.request.urlopen(url).read()]: the bytes the origin serves,
    [None] when the request fails. *)
Variable origin : string -> option (list byte).

(** [gzip] decompression of a whole file, [None] on a malformed stream. *)
Variable gunzip : list byte -> option (list byte).

(** [terrain_gen.add_offset]. *)
Variable add_offset : Q -> Q -> Q -> Q -> string -> Q * Q.

(** One request is short against the 24 hour window: a single clock
    reading [now] stands for its [time.time()] calls and stamps the
    files it writes. *)
Variable now : Q.

(** [os.path.exists(p)]. *)
Definition path_exists (p : string) : M bool :=
  fun w => (Ret (bool_decide (is_Some (disk w !! p))), w).

(** [urlopen(url)] with its [.read()], which is taken to succeed once
    the request has; the request is logged whether or not it succeeds. *)
Definition urlopen (url : string) : M (list byte) :=
  fun w =>
    let w' := {| disk := disk w; requested := url :: requested w |} in
    match origin url with
    | Some b => (Ret b, w')
    | None => (Raise (URLError url), w')
    end.

(** [open(p, 'b+w')]: the file is created, or truncated, at once. *)
Definition open_w (p : string) : M unit :=
  fun w => (Ret tt, set_disk (<[p := File now (Raw [])]> (disk w)) w).

(** [f.write(b)] on the handle opened on [p]. *)
Definition write (p : string) (b : list byte) : M unit :=
  fun w =>
    let old := match disk w !! p with
               | Some (File _ (Raw o)) => o
               | _ => []
               end in
    (Ret tt, set_disk (<[p := File now (Raw (old ++ b))]> (disk w)) w).

(** [with open(fn, 'b+w') as f: f.write(b)], as its two effects on the
    disk, in order. *)
Definition store_tile (fn : string) (b : list byte) : list (M unit) :=
  [open_w fn; write fn b].

Definition run_steps (steps : list (M unit)) : M unit :=
  for_each steps (fun m => m).

(** The worlds a sequence of effects passes through, one per effect. *)
Fixpoint worlds_of (steps : list (M unit)) (w : world) : list world :=
  match steps with
  | [] => []
  | m :: rest => let w' := snd (m w) in w' :: worlds_of rest w'
  end.

(** [gzip.open(p, 'r').read()]. *)
Definition gzip_read (p : string) : M (list byte) :=
  fun w =>
    match disk w !! p with
    | None => (Raise (FileNotFoundError p), w)
    | Some (File _ (ZipArchive _)) => (Raise (BadGzipFile p), w)
    | Some (File _ (Raw b)) =>
        match gunzip b with
        | Some c => (Ret c, w)
        | None => (Raise (BadGzipFile p), w)
        end
    end.

(** [zipfile.ZipFile(p, 'w')]: an archive without entries is on disk
    from here on; leaving the [with] block, also by an exception, closes
    it with the entries written so far.  The disk has no directories, so
    the open itself is taken to succeed: a destination that cannot be
    created (the output directory missing or not writable), where the
    code returns [False] without any archive, is outside the model, and
    what is stated of the archive after a failed build holds from the
    open on. *)
Definition zip_open (p : string) : M unit :=
  fun w => (Ret tt, set_disk (<[p := File now (ZipArchive [])]> (disk w)) w).

(** [terrain_zip.writestr(name, content, ...)]. *)
Definition zip_writestr (p name : string) (content : list byte) : M unit :=
  fun w =>
    match disk w !! p with
    | Some (File _ (ZipArchive es)) =>
        (Ret tt, set_disk (<[p := File now (ZipArchive (es ++ [(name, content)]))]> (disk w)) w)
    | _ => (Raise (BadZipFile p), w)
    end.

(** [os.stat(p).st_mtime]. *)
Definition os_stat_mtime (p : string) : M Q :=
  fun w =>
    match disk w !! p with
    | Some f => (Ret (st_mtime f), w)
    | None => (Raise (FileNotFoundError p), w)
    end.

(** [os.remove(p)]. *)
Definition os_remove (p : string) : M unit :=
  fun w =>
    match disk w !! p with
    | Some _ => (Ret tt, set_disk (delete p (disk w)) w)
    | None => (Raise (FileNotFoundError p), w)
    end.

(** The body of the [for fn in fileList] loop of [compressFiles]. *)
Definition add_tile (url_path : option string) (zipthis fn : string) : M unit :=
  present <- path_exists fn ;;
  (match url_path with
   | Some url =>
       if negb present then
         g <- urlopen (url +:+ PyStr.basename fn) ;;
         run_steps (store_tile fn g)
       else ret tt
   | None => ret tt
   end) ;;;
  content <- gzip_read fn ;;
  zip_writestr zipthis (PyStr.drop_last 3 (PyStr.basename fn)) content.

(** The [if version == 1 ... elif version == 3 ...] chain: [url_path]
    stays unbound for any other version. *)
Definition url_path_of (version : Z) : option (option string) :=
  if version =? 1 then Some (url_path1 cfg)
  else if version =? 3 then Some (url_path3 cfg)
  else None.

Definition zip_path (uuidkey : string) : string :=
  PyStr.path_join (output_path cfg) (uuidkey +:+ ".zip").

(** [compressFiles(fileList, uuidkey, version)].  The [os.makedirs]
    calls only create directories, which the disk does not record. *)
Definition compressFiles (fileList : list string) (uuidkey : string) (version : Z)
  : M bool :=
  let zipthis := zip_path uuidkey in
  match url_path_of version with
  | None => raise (UnboundLocalError "url_path")
  | Some url_path =>
      try_except
        (zip_open zipthis ;;;
         for_each fileList (add_tile url_path zipthis) ;;;
         ret true)
        (fun _ => ret false)
  end.

(** One pass of the clean-up loop. *)
Definition sweep_entry (f : string) : M unit :=
  let p := PyStr.path_join (output_path cfg) f in
  mtime <- os_stat_mtime p ;;
  if Qlt_bool mtime (now - inject_Z (24 * 60 * 60))%Q then os_remove p else ret tt.

(** [for f in os.listdir(output_path): ...], on the listing
    [os.listdir] returned.  Other requests sweep the same directory, so
    the listing is an input of its own: it may name files that are gone
    by the time they are reached. *)
Definition sweep (listing : list string) : M unit :=
  for_each listing sweep_entry.

(** The response of the [if success:] branch; the fields left out take
    their default [None]. *)
Definition response_ok (uuidkey : string) (outsideLat : option bool) : GenerateResponse :=
  {| success := true;
     uuid := uuidkey;
     download_url := Some ("/userRequestTerrain/" +:+ uuidkey +:+ ".zip");
     outside_lat := outsideLat;
     error := None |}.

(** The response of the [else:] branch. *)
Definition response_failed (uuidkey : string) : GenerateResponse :=
  {| success := false;
     uuid := uuidkey;
     download_url := None;
     outside_lat := None;
     error := Some "Cannot generate terrain" |}.

(** The tail common to both handlers, from [compressFiles] to the
    response. *)
Definition build_and_respond (st : scan_state) (uuidkey : string) (version : Z)
  (listing : list string) : M GenerateResponse :=
  let filelist := dict_fromkeys (filelist st) in
  success <- compressFiles filelist uuidkey version ;;
  sweep listing ;;;
  if success then ret (response_ok uuidkey (outsideLat st))
  else ret (response_failed uuidkey).

(** The handler's [except Exception as e: raise HTTPException(500, ...)]. *)
Definition as_http_500 {A} (m : M A) : M A :=
  try_except m (fun e => raise (HTTPException 500 e)).

Definition tile_path_of (version : Z) : string :=
  if version =? 1 then tile_path1 cfg else tile_path3 cfg.

(** [generate_api]; [uuidkey] is the value of [str(uuid.uuid1())]. *)
Definition generate_api (uuidkey : string) (listing : list string)
  (req : GenerateRequest.t) : M GenerateResponse :=
  as_http_500
    (let st := circle_scan add_offset (tile_path_of (GenerateRequest.version req))
                 (GenerateRequest.lat req) (GenerateRequest.lon req)
                 (GenerateRequest.radius req) in
     build_and_respond st uuidkey (GenerateRequest.version req) listing).

(** [generate_rectangle_api]; [None] when the scan runs out of fuel. *)
Definition generate_rectangle_api (fuel : nat) (uuidkey : string)
  (listing : list string) (req : GenerateRectangleRequest.t)
  : world -> option (outcome GenerateResponse * world) :=
  fun w =>
    match rect_scan fuel (tile_path_of (GenerateRectangleRequest.version req))
            (GenerateRectangleRequest.min_lat req) (GenerateRectangleRequest.max_lat req)
            (GenerateRectangleRequest.min_lon req) (GenerateRectangleRequest.max_lon req) with
    | None => None
    | Some st =>
        Some (as_http_500
                (build_and_respond st uuidkey (GenerateRectangleRequest.version req) listing) w)
    end.

(** The scan each handler runs on its request. *)
Definition resolve_area (fuel : nat) (a : AreaRequest) : option scan_state :=
  match a with
  | Circle r =>
      Some (circle_scan add_offset (tile_path_of (GenerateRequest.version r))
              (GenerateRequest.lat r) (GenerateRequest.lon r) (GenerateRequest.radius r))
  | Rectangle r =>
      rect_scan fuel (tile_path_of (GenerateRectangleRequest.version r))
        (GenerateRectangleRequest.min_lat r) (GenerateRectangleRequest.max_lat r)
        (GenerateRectangleRequest.min_lon r) (GenerateRectangleRequest.max_lon r)
  end.

(** The one operation the two routes expose: each request goes to its
    handler. *)
Definition generate (fuel : nat) (uuidkey : string) (listing : list string)
  (a : AreaRequest) : world -> option (outcome GenerateResponse * world) :=
  fun w =>
    match a with
    | Circle r => Some (generate_api uuidkey listing r w)
    | Rectangle r => generate_rectangle_api fuel uuidkey listing r w
    end.

End Server.

(** ** Vocabulary of the statements *)

(** The integers below [n]. *)
Definition upto (n : nat) : list Z := map Z.of_nat (seq 0 n).

Definition inside (tag : Z * Z) : Prop := Z.abs tag.1 <= 84.

#[local] Instance inside_dec tag : Decision (inside tag).
Proof. unfold inside. apply _. Defined.

(** The flag a set of scanned cells calls for. *)
Definition flag_of (cells : list (Z * Z)) : option bool :=
  if bool_decide (Forall inside cells) then None else Some true.

Definition cell_path (tile_path : string) (tag : Z * Z) : string :=
  PyStr.path_join tile_path (getDatFile tag.1 tag.2).

(** A scan state is determined by its [done] set: no cell twice, the
    flag raised exactly when some cell lies beyond 84 degrees, one file
    per cell within, in the order of discovery. *)
Definition scan_wf (tile_path : string) (st : scan_state) : Prop :=
  NoDup (done st) /\
  outsideLat st = flag_of (done st) /\
  filelist st = cell_path tile_path <$> filter inside (reverse (done st)).

(** The file at [p] is an archive holding the entries [es]. *)
Definition is_archive (p : string) (es : list (string * list byte)) (w : world) : Prop :=
  exists t, disk w !! p = Some (File t (ZipArchive es)).

(** The tile [fn] cannot be had in world [w]: it is on disk but does not
    decompress; or it is not, and no origin is configured, or the origin
    does not serve it, or serves bytes that do not decompress. *)
Definition tile_fails (origin : string -> option (list byte))
  (gunzip : list byte -> option (list byte))
  (url_path : option string) (fn : string) (w : world) : Prop :=
  match disk w !! fn with
  | Some (File _ (Raw b)) => gunzip b = None
  | Some (File _ (ZipArchive _)) => True
  | None =>
      match url_path with
      | None => True
      | Some url =>
          match origin (url +:+ PyStr.basename fn) with
          | None => True
          | Some g => gunzip g = None
          end
      end
  end.

(** The test of the clean-up loop: last modified more than 24 hours
    before [now]. *)
Definition expired (now : Q) (f : file) : bool :=
  Qlt_bool (st_mtime f) (now - inject_Z (24 * 60 * 60))%Q.

(** A request that scans at least one cell: a radius of one kilometre or
    more, bounds in order. *)
Definition proper (a : AreaRequest) : Prop :=
  match a with
  | Circle r => 1 <= GenerateRequest.radius r
  | Rectangle r =>
      (GenerateRectangleRequest.min_lat r <= GenerateRectangleRequest.max_lat r)%Q /\
      (GenerateRectangleRequest.min_lon r <= GenerateRectangleRequest.max_lon r)%Q
  end.

(** ** A small world for the examples *)

Module Demo.

Definition cfg : config :=
  {| output_path := "/out";
     tile_path1 := "/t1";
     tile_path3 := "/t3";
     url_path1 := None;
     url_path3 := Some "http://origin/tilesdat3/" |}.

(** A stand-in for gzip: a stream is its payload behind one magic byte;
    the empty file reads as no bytes, without error, as with Python's
    [gzip]. *)
Definition gunzip (b : list byte) : option (list byte) :=
  match b with
  | [] => Some []
  | x1f :: payload => Some payload
  | _ => None
  end.

(** An origin that serves one tile of version 3. *)
Definition origin (url : string) : option (list byte) :=
  if String.eqb url "http://origin/tilesdat3/N00E000.DAT.gz"
  then Some [x1f; x2a; x2b]
  else None.

(** A flat stand-in for [add_offset]: 90 units of 1e-7 degree to the
    metre on both axes. *)
Definition add_offset (latE7 lonE7 dx dy : Q) (format : string) : Q * Q :=
  (latE7 + dy * inject_Z 90, lonE7 + dx * inject_Z 90)%Q.

(** The clock reads 100000 s; one archive in the store is older than 24
    hours, one tile of version 1 is in the cache. *)
Definition now : Q := inject_Z 100000.

Definition w0 : world :=
  {| disk := {[ "/out/old.zip" := File (inject_Z 1000) (ZipArchive []);
                "/t1/N00E000.DAT.gz" := File (inject_Z 500) (Raw [x1f; x01]) ]};
     requested := [] |}.

End Demo.

(** The world a handler leaves, [w] itself when it left none. *)
Definition world_after {A} (r : option (outcome A * world)) (w : world) : world :=
  match r with
  | Some (_, w') => w'
  | None => w
  end.

(** The cells a rectangle is specified to resolve to: the integer
    degree cells from the floor of each lower bound to the floor of the
    upper one, both included. *)
Definition claimed_cells (min_lat max_lat min_lon max_lon : Q) : list (Z * Z) :=
  lat_int ← py_range (Qfloor min_lat) (Qfloor max_lat + 1);
  lon_int ← py_range (Qfloor min_lon) (Qfloor max_lon + 1);
  [(lat_int, lon_int)].

(** ** The rest of the module: clamp, the validators, the form routes *)

(** [clamp(n, smallest, largest)], used on the integer radius of the
    form route. *)
Definition clamp (n smallest largest : Z) : Z := Z.max smallest (Z.min n largest).

(** No separator occurs in [s]. *)
Fixpoint no_slash (s : string) : bool :=
  match s with
  | EmptyString => true
  | String c s' => negb (Ascii.eqb c "/"%char) && no_slash s'
  end.

(** The chained comparison [lo <= x <= hi] of a float against two
    integer bounds. *)
Definition in_range (lo : Z) (x : Q) (hi : Z) : bool :=
  Qle_bool (inject_Z lo) x && Qle_bool x (inject_Z hi).

(** [v in [1, 3]]. *)
Definition version_ok (v : Z) : bool := bool_decide (v ∈ [1; 3]).

(** The constructor [GenerateRequest(lat=, lon=, radius=, version=)]:
    the [Field] bounds and [validate_version]; [None] when pydantic
    raises its validation error. *)
Definition new_GenerateRequest (lat lon : Q) (radius version : Z)
  : option GenerateRequest.t :=
  if in_range (-90) lat 90 && in_range (-180) lon 180
     && (1 <=? radius) && (radius <=? 400) && version_ok version
  then Some (GenerateRequest.Make lat lon radius version)
  else None.

(** The constructor [GenerateRectangleRequest(...)]: the [Field] bounds,
    [validate_version], and the two range validators, which refuse
    [max <= min]. *)
Definition new_GenerateRectangleRequest (min_lat max_lat min_lon max_lon : Q) (version : Z)
  : option GenerateRectangleRequest.t :=
  if in_range (-90) min_lat 90 && in_range (-90) max_lat 90
     && in_range (-180) min_lon 180 && in_range (-180) max_lon 180
     && version_ok version
     && negb (Qle_bool max_lat min_lat) && negb (Qle_bool max_lon min_lon)
  then Some (GenerateRectangleRequest.Make min_lat max_lat min_lon max_lon version)
  else None.

(** A stand-in for [add_offset] that lands beyond the range of the
    name format: longitude 1001 degrees, shifted by the x offset at 1e4
    units of 1e-7 degree to the metre. *)
Definition far_offset (latE7 lonE7 dx dy : Q) (format : string) : Q * Q :=
  (0, inject_Z 10010000000 + dx * inject_Z 10000)%Q.

(** The archive entry [e] is the tile [fn] as world [w] holds it: named
    after it without the last three characters, with the decompressed
    bytes of the file at [fn]. *)
Definition entry_of (gunzip : list byte -> option (list byte)) (w : world)
  (fn : string) (e : string * list byte) : Prop :=
  e.1 = PyStr.drop_last 3 (PyStr.basename fn) /\
  exists t b, disk w !! fn = Some (File t (Raw b)) /\ gunzip b = Some e.2.


(** Every file of [w'] is as in [w] or stamped [now]: nothing was
    deleted, and what was written carries the clock reading. *)
Definition writes_stamped (now : Q) (w w' : world) : Prop :=
  forall p, disk w' !! p = disk w !! p \/ exists d, disk w' !! p = Some (File now d).

(** ** Floats whose steps are exact *)

(** A binary64 number with at most 44 bits after the point: [m / 2^44]
    with [|m| < 2^53], of magnitude below 512.  The sum of two of them
    that is again one of them is exact in binary64, so on these the
    float [x += 1.0] of the code and the rational step of [rect_row] and
    [rect_rows] are the same number. *)
Definition fixed44 (x : Q) : Prop :=
  exists m : Z, Z.abs m < 2 ^ 53 /\ (x == Qmake m (2 ^ 44))%Q.

(** The requests whose scan steps only through such numbers: every
    circle (its loops run over integers), and the rectangles with lower
    bounds of at most 44 fractional bits and upper bounds up to 180. *)
Definition steps_exact (a : AreaRequest) : Prop :=
  match a with
  | Circle _ => True
  | Rectangle r =>
      fixed44 (GenerateRectangleRequest.min_lat r) /\
      fixed44 (GenerateRectangleRequest.min_lon r) /\
      (GenerateRectangleRequest.max_lat r <= inject_Z 180)%Q /\
      (GenerateRectangleRequest.max_lon r <= inject_Z 180)%Q
  end.

(** ** The form routes *)

(** A value of a template context. *)
Inductive ctx_value :=
| CStr (s : string)
| CBool (b : bool)
| CNone.

Definition ctx_str (o : option string) : ctx_value :=
  match o with
  | Some s => CStr s
  | None => CNone
  end.

Definition ctx_bool (o : option bool) : ctx_value :=
  match o with
  | Some b => CBool b
  | None => CNone
  end.

(** [templates.TemplateResponse(template, context)]; the ["request"]
    entry, which every context carries, is left out. *)
Record TemplateResponse := Template {
  template : string;
  context : list (string * ctx_value)
}.

(** The page with an error message alone. *)
Definition error_page (msg : string) : TemplateResponse :=
  Template "generate.html" [("error", CStr msg)].

(** The [if response.success: ... else: ...] of both form routes. *)
Definition page_of_response (response : GenerateResponse) : TemplateResponse :=
  if success response then
    Template "generate.html"
      [("urlkey", ctx_str (download_url response));
       ("uuidkey", CStr (uuid response));
       ("outsideLat", ctx_bool (outside_lat response))]
  else
    Template "generate.html"
      [("error", ctx_str (error response));
       ("uuidkey", CStr (uuid response))].

(** The [except Exception as e:] of a form route: whatever was raised,
    an HTTP 500 of the handler included, the page with [msg]. *)
Definition or_error_page (msg : string) (m : M TemplateResponse) : M TemplateResponse :=
  try_except m (fun _ => ret (error_page msg)).

(** The page a form route makes of the outcome of its handler. *)
Definition page_of_outcome (msg : string) (r : outcome GenerateResponse * world)
  : outcome TemplateResponse * world :=
  match r with
  | (Ret response, w') => (Ret (page_of_response response), w')
  | (Raise _, w') => (Ret (error_page msg), w')
  end.

(** The condition of the [if] that opens [generate_form]. *)
Definition form_input_refused (lat lon : Q) (version : Z) : bool :=
  negb (in_range (-90) lat 90) || negb (in_range (-180) lon 180)
  || negb (version_ok version).

Definition form_input_ok (lat lon : Q) (version : Z) : bool :=
  negb (form_input_refused lat lon version).

(** The condition of the [if] that opens [generate_rectangle_form];
    [min_lat >= max_lat] and [min_lon >= max_lon] are its last two
    disjuncts. *)
Definition rectangle_form_input_refused (min_lat max_lat min_lon max_lon : Q) (version : Z)
  : bool :=
  negb (in_range (-90) min_lat 90) || negb (in_range (-90) max_lat 90)
  || negb (in_range (-180) min_lon 180) || negb (in_range (-180) max_lon 180)
  || negb (version_ok version)
  || Qle_bool max_lat min_lat || Qle_bool max_lon min_lon.

Definition rectangle_form_input_ok (min_lat max_lat min_lon max_lon : Q) (version : Z) : bool :=
  negb (rectangle_form_input_refused min_lat max_lat min_lon max_lon version).

Section FormRoutes.

Variable cfg : config.
Variable origin : string -> option (list byte).
Variable gunzip : list byte -> option (list byte).
Variable add_offset : Q -> Q -> Q -> Q -> string -> Q * Q.
Variable now : Q.

(** [generate_form].  A validation error of the [GenerateRequest]
    constructor would be raised inside the [try] and caught by its
    [except], which returns the error page with the world as it is. *)
Definition generate_form (uuidkey : string) (listing : list string)
  (lat lon : Q) (radius version : Z) : M TemplateResponse :=
  or_error_page "Error with input"
    (if form_input_refused lat lon version then ret (error_page "Error with input")
     else
       let radius := clamp radius 1 400 in
       match new_GenerateRequest lat lon radius version with
       | None => ret (error_page "Error with input")
       | Some generate_req =>
           response <- generate_api cfg origin gunzip add_offset now uuidkey listing
                         generate_req ;;
           ret (page_of_response response)
       end).

(** [generate_rectangle_form]; [None] when the scan of the handler runs
    out of fuel. *)
Definition generate_rectangle_form (fuel : nat) (uuidkey : string) (listing : list string)
  (min_lat max_lat min_lon max_lon : Q) (version : Z)
  : world -> option (outcome TemplateResponse * world) :=
  fun w =>
    let msg := "Error with rectangle input parameters"%string in
    if rectangle_form_input_refused min_lat max_lat min_lon max_lon version
    then Some (Ret (error_page msg), w)
    else
      match new_GenerateRectangleRequest min_lat max_lat min_lon max_lon version with
      | None => Some (Ret (error_page msg), w)
      | Some rectangle_req =>
          match generate_rectangle_api cfg origin gunzip now fuel uuidkey listing
                  rectangle_req w with
          | None => None
          | Some r =>
              Some (or_error_page msg
                      (response <- (fun _ => r) ;; ret (page_of_response response)) w)
          end
      end.

End FormRoutes.

(** * Properties *)

(** ** TileNamer *)

Lemma elem_of_upto (n : nat) (z : Z) : 0 <= z < Z.of_nat n -> In z (upto n).
Proof.
  intros Hz. unfold upto. apply in_map_iff. exists (Z.to_nat z).
  split; [lia|]. apply in_seq. lia.
Qed.

Lemma fmt_2u_table :
  forallb (fun n => String.eqb (PyStr.fmt_0u 2 n) (TileNamer.two_digits n))
    (upto 100) = true.
Proof. vm_compute. reflexivity. Qed.

Lemma fmt_3u_table :
  forallb (fun n => String.eqb (PyStr.fmt_0u 3 n) (TileNamer.three_digits n))
    (upto 1000) = true.
Proof. vm_compute. reflexivity. Qed.

Lemma fmt_2u_digits (n : Z) :
  0 <= n <= 99 -> PyStr.fmt_0u 2 n = TileNamer.two_digits n.
Proof.
  intros Hn. pose proof fmt_2u_table as T.
  rewrite forallb_forall in T. apply String.eqb_eq, T, elem_of_upto. lia.
Qed.

Lemma fmt_3u_digits (n : Z) :
  0 <= n <= 999 -> PyStr.fmt_0u 3 n = TileNamer.three_digits n.
Proof.
  intros Hn. pose proof fmt_3u_table as T.
  rewrite forallb_forall in T. apply String.eqb_eq, T, elem_of_upto. lia.
Qed.

(** The source's name is the specified one at every pair of integers:
    the clamps keep the formatter inside its two- and three-digit
    range. *)
Lemma getDatFile_name (lat lon : Z) : getDatFile lat lon = TileNamer.name lat lon.
Proof.
  unfold getDatFile, TileNamer.name, TileNamer.hemisphere_NS, TileNamer.hemisphere_EW.
  rewrite fmt_2u_digits by lia. rewrite fmt_3u_digits by lia.
  replace (0 <=? lat) with (negb (lat <? 0)) by lia.
  replace (0 <=? lon) with (negb (lon <? 0)) by lia.
  destruct (lat <? 0), (lon <? 0); reflexivity.
Qed.

Lemma name_length (lat lon : Z) : String.length (TileNamer.name lat lon) = 14%nat.
Proof. reflexivity. Qed.

Example getDatFile_S12E034 : getDatFile (-12) 34 = "S12E034.DAT.gz".
Proof. reflexivity. Qed.

Example getDatFile_clamps : getDatFile 123 (-2000) = "N99W999.DAT.gz".
Proof. reflexivity. Qed.

(** C7. For integers with [|lat| <= 99] and [|lon| <= 999], [getDatFile]
    (a total function, so deterministic and without error cases) returns
    the 14 characters [<NS><LL><EW><LLL>.DAT.gz]: [N] for [lat >= 0] and
    [S] otherwise, [E] for [lon >= 0] and [W] otherwise, then the two
    digits of [min(|lat|, 99)] and the three digits of [min(|lon|, 999)],
    which in this range are [|lat|] and [|lon|] themselves. *)
Theorem getDatFile_spec (lat lon : Z) :
  Z.abs lat <= 99 -> Z.abs lon <= 999 ->
  getDatFile lat lon = TileNamer.name lat lon /\
  getDatFile lat lon =
    String (if 0 <=? lat then "N"%char else "S"%char)
           (TileNamer.two_digits (Z.abs lat))
    +:+ String (if 0 <=? lon then "E"%char else "W"%char)
               (TileNamer.three_digits (Z.abs lon))
    +:+ ".DAT.gz" /\
  String.length (getDatFile lat lon) = 14%nat.
Proof.
  intros Hlat Hlon. rewrite getDatFile_name. split; [reflexivity|]. split.
  - unfold TileNamer.name, TileNamer.hemisphere_NS, TileNamer.hemisphere_EW.
    rewrite !Z.min_l by lia. reflexivity.
  - apply name_length.
Qed.

Lemma getDatFile_spec_witness :
  getDatFile (-12) 34 = TileNamer.name (-12) 34 /\
  getDatFile (-12) 34 =
    String (if 0 <=? -12 then "N"%char else "S"%char)
           (TileNamer.two_digits (Z.abs (-12)))
    +:+ String (if 0 <=? 34 then "E"%char else "W"%char)
               (TileNamer.three_digits (Z.abs 34))
    +:+ ".DAT.gz" /\
  String.length (getDatFile (-12) 34) = 14%nat.
Proof. apply (getDatFile_spec (-12) 34); simpl; lia. Defined.

(** ** AreaResolver: what a scan state records *)

Lemma scan_init_wf tile_path : scan_wf tile_path scan_init.
Proof. repeat split. constructor. Qed.

Lemma flag_of_cons tag cells :
  flag_of (tag :: cells) = if decide (inside tag) then flag_of cells else Some true.
Proof.
  unfold flag_of. destruct (decide (inside tag)) as [Hin|Hout].
  - destruct (decide (Forall inside cells)) as [Hall|Hnot].
    + rewrite !bool_decide_eq_true_2; auto.
    + rewrite !bool_decide_eq_false_2; auto. rewrite Forall_cons. tauto.
  - rewrite bool_decide_eq_false_2; auto. rewrite Forall_cons. tauto.
Qed.

Lemma record_tag_wf tile_path lat_int lon_int st :
  (lat_int, lon_int) ∉ done st ->
  scan_wf tile_path st ->
  scan_wf tile_path (record_tag tile_path lat_int lon_int st).
Proof.
  intros Hnew (Hnd & Hflag & Hfiles). unfold record_tag, scan_wf.
  destruct (Z.abs lat_int <=? 84) eqn:Hlim; cbn [done outsideLat filelist].
  - apply Z.leb_le in Hlim. repeat split.
    + apply NoDup_cons; auto.
    + rewrite flag_of_cons. rewrite decide_True by exact Hlim. exact Hflag.
    + rewrite reverse_cons, filter_app, fmap_app, Hfiles.
      rewrite filter_cons, decide_True by exact Hlim. reflexivity.
  - apply Z.leb_gt in Hlim. repeat split.
    + apply NoDup_cons; auto.
    + rewrite flag_of_cons. rewrite decide_False; [reflexivity|].
      unfold inside; simpl; lia.
    + rewrite reverse_cons, filter_app, fmap_app, Hfiles.
      rewrite filter_cons, decide_False by (unfold inside; simpl; lia).
      rewrite filter_nil, fmap_nil, app_nil_r. reflexivity.
Qed.

Lemma record_tag_done tile_path lat_int lon_int st :
  done (record_tag tile_path lat_int lon_int st) = (lat_int, lon_int) :: done st.
Proof. unfold record_tag. destruct (Z.abs lat_int <=? 84); reflexivity. Qed.

Lemma visit_wf tile_path lat_int lon_int st :
  scan_wf tile_path st -> scan_wf tile_path (visit tile_path lat_int lon_int st).
Proof.
  intros Hwf. unfold visit. case_bool_decide; [exact Hwf|].
  apply record_tag_wf; assumption.
Qed.

(** After a visit the set holds the visited cell and what it held. *)
Lemma visit_done tile_path lat_int lon_int st tag :
  tag ∈ done (visit tile_path lat_int lon_int st) <->
  tag = (lat_int, lon_int) \/ tag ∈ done st.
Proof.
  unfold visit. case_bool_decide as Hin.
  - split; [auto|]. intros [->|H]; assumption.
  - rewrite record_tag_done, elem_of_cons. reflexivity.
Qed.

(** [dict.fromkeys] leaves no duplicate and no new element. *)
Lemma fromkeys_from_spec l : forall seen,
  NoDup (fromkeys_from seen l) /\
  forall x, x ∈ fromkeys_from seen l <-> x ∈ l /\ x ∉ seen.
Proof.
  induction l as [|y l IH]; intros seen; simpl.
  - split; [constructor|]. intros x. rewrite elem_of_nil. tauto.
  - case_bool_decide as Hy.
    + destruct (IH seen) as [Hnd Hmem]. split; [exact Hnd|].
      intros x. rewrite Hmem, elem_of_cons. split; [tauto|].
      intros [[->|Hx] Hns]; tauto.
    + destruct (IH (y :: seen)) as [Hnd Hmem]. split.
      * apply NoDup_cons. split; [|exact Hnd].
        rewrite Hmem, elem_of_cons. tauto.
      * intros x. rewrite !elem_of_cons, Hmem, elem_of_cons.
        destruct (decide (x = y)) as [->|Hne]; tauto.
Qed.

Lemma dict_fromkeys_NoDup l : NoDup (dict_fromkeys l).
Proof. apply (fromkeys_from_spec l []). Qed.

Lemma dict_fromkeys_elem l x : x ∈ dict_fromkeys l <-> x ∈ l.
Proof.
  unfold dict_fromkeys. rewrite (proj2 (fromkeys_from_spec l [])).
  rewrite elem_of_nil. tauto.
Qed.

Lemma elem_of_py_range a b z : z ∈ py_range a b <-> a <= z < b.
Proof.
  unfold py_range. rewrite list_elem_of_In, in_map_iff. split.
  - intros (i & <- & Hi). apply in_seq in Hi. lia.
  - intros Hz. exists (Z.to_nat (z - a)). split; [lia|]. apply in_seq. lia.
Qed.

Lemma py_range_empty a b : b <= a -> py_range a b = [].
Proof.
  intros H. unfold py_range. replace (Z.to_nat (b - a)) with 0%nat by lia.
  reflexivity.
Qed.

(** ** The circle scan *)

Section CircleFacts.

Variable add_offset : Q -> Q -> Q -> Q -> string -> Q * Q.
Variable tile_path : string.
Variables lat lon : Q.

Lemma circle_row_wf radius dx st :
  scan_wf tile_path st ->
  scan_wf tile_path (circle_row add_offset tile_path lat lon radius dx st).
Proof.
  unfold circle_row. generalize (py_range (- radius) radius) as dys.
  intros dys; revert st. induction dys as [|dy dys IH]; intros st Hwf; simpl.
  - exact Hwf.
  - apply IH. destruct (circle_cell add_offset lat lon dx dy). apply visit_wf, Hwf.
Qed.

Lemma circle_row_done radius dx st tag :
  tag ∈ done (circle_row add_offset tile_path lat lon radius dx st) <->
  tag ∈ done st \/
  exists dy, - radius <= dy < radius /\ circle_cell add_offset lat lon dx dy = tag.
Proof.
  unfold circle_row.
  setoid_rewrite <- (elem_of_py_range (- radius) radius).
  generalize (py_range (- radius) radius) as dys.
  intros dys; revert st. induction dys as [|dy dys IH]; intros st; simpl.
  - split; [auto|]. intros [H|(dy & Hdy & _)]; [exact H|].
    apply elem_of_nil in Hdy. contradiction.
  - rewrite IH. destruct (circle_cell add_offset lat lon dx dy) as [a b] eqn:Hc.
    rewrite visit_done. split.
    + intros [[->|H]|(dy' & Hdy' & Hcell)].
      * right. exists dy. split; [apply elem_of_cons; auto|exact Hc].
      * auto.
      * right. exists dy'. split; [apply elem_of_cons; auto|exact Hcell].
    + intros [H|(dy' & Hdy' & Hcell)]; [auto|].
      apply elem_of_cons in Hdy' as [->|Hdy'].
      * left. left. congruence.
      * right. exists dy'. auto.
Qed.

Lemma circle_scan_wf radius :
  scan_wf tile_path (circle_scan add_offset tile_path lat lon radius).
Proof.
  unfold circle_scan. generalize (scan_init_wf tile_path).
  generalize scan_init as st. generalize (py_range (- radius) radius) at 1 as dxs.
  induction dxs as [|dx dxs IH]; intros st Hwf; simpl.
  - exact Hwf.
  - apply IH, circle_row_wf, Hwf.
Qed.

(** The set holds exactly the cells of the offset pairs of the square. *)
Lemma circle_scan_done radius tag :
  tag ∈ done (circle_scan add_offset tile_path lat lon radius) <->
  exists dx dy, - radius <= dx < radius /\ - radius <= dy < radius /\
                circle_cell add_offset lat lon dx dy = tag.
Proof.
  unfold circle_scan.
  assert (Hgen : forall dxs st,
    tag ∈ done (fold_left (fun st dx => circle_row add_offset tile_path lat lon radius dx st)
                          dxs st) <->
    tag ∈ done st \/
    exists dx dy, dx ∈ dxs /\ - radius <= dy < radius /\
                  circle_cell add_offset lat lon dx dy = tag).
  { induction dxs as [|dx dxs IH]; intros st; simpl.
    - split; [auto|]. intros [H|(dx & dy & Hdx & _)]; [exact H|].
      apply elem_of_nil in Hdx. contradiction.
    - rewrite IH, circle_row_done. split.
      + intros [[H|(dy & Hdy & Hc)]|(dx' & dy & Hdx' & Hdy & Hc)].
        * auto.
        * right. exists dx, dy. split; [apply elem_of_cons; auto|auto].
        * right. exists dx', dy. split; [apply elem_of_cons; auto|auto].
      + intros [H|(dx' & dy & Hdx' & Hdy & Hc)]; [auto|].
        apply elem_of_cons in Hdx' as [->|Hdx'].
        * left. right. exists dy. auto.
        * right. exists dx', dy. auto. }
  rewrite Hgen. simpl. rewrite elem_of_nil. split.
  - intros [[]|(dx & dy & Hdx & Hdy & Hc)].
    exists dx, dy. apply elem_of_py_range in Hdx. tauto.
  - intros (dx & dy & Hdx & Hdy & Hc). right. exists dx, dy.
    split; [apply elem_of_py_range; exact Hdx|tauto].
Qed.

Lemma circle_scan_degenerate radius :
  radius <= 0 -> circle_scan add_offset tile_path lat lon radius = scan_init.
Proof.
  intros Hr. unfold circle_scan. rewrite py_range_empty by lia. reflexivity.
Qed.

End CircleFacts.

(** What the final file list holds, for any well-formed scan state. *)
Lemma resolved_files_elem tile_path st p :
  scan_wf tile_path st ->
  p ∈ dict_fromkeys (filelist st) <->
  exists tag, tag ∈ done st /\ inside tag /\ p = cell_path tile_path tag.
Proof.
  intros (_ & _ & Hfiles). rewrite dict_fromkeys_elem, Hfiles, list_elem_of_fmap.
  split; intros (tag & H1 & H2).
  - apply list_elem_of_filter in H2 as [Hin Hmem]. rewrite elem_of_reverse in Hmem.
    exists tag. split; [exact Hmem|]. split; [exact Hin|exact H1].
  - destruct H2 as [Hin ->]. exists tag. split; [reflexivity|].
    apply list_elem_of_filter. split; [exact Hin|]. rewrite elem_of_reverse. exact H1.
Qed.

(** C5. In [generate_api], whatever [add_offset] computes: the set
    [done] holds every cell an offset pair of the square maps to and
    nothing else, each cell entered once however many pairs map to it;
    the file list handed on has no duplicate, and holds exactly the
    files of the cells within 84 degrees. *)
Theorem circle_scan_dedup (add_offset : Q -> Q -> Q -> Q -> string -> Q * Q)
  (tile_path : string) (lat lon : Q) (radius : Z) :
  let st := circle_scan add_offset tile_path lat lon radius in
  NoDup (done st) /\
  NoDup (dict_fromkeys (filelist st)) /\
  (forall tag, tag ∈ done st <->
     exists dx dy, - radius <= dx < radius /\ - radius <= dy < radius /\
                   circle_cell add_offset lat lon dx dy = tag) /\
  (forall p, p ∈ dict_fromkeys (filelist st) <->
     exists tag, tag ∈ done st /\ Z.abs tag.1 <= 84 /\
                 p = PyStr.path_join tile_path (getDatFile tag.1 tag.2)).
Proof.
  intros st. pose proof (circle_scan_wf add_offset tile_path lat lon radius) as Hwf.
  fold st in Hwf. split; [apply Hwf|]. split; [apply dict_fromkeys_NoDup|]. split.
  - intros tag. apply circle_scan_done.
  - intros p. apply (resolved_files_elem tile_path st p Hwf).
Qed.

(** ** The rectangle scan *)

Lemma Qfloor_unique (x : Q) (z : Z) :
  (inject_Z z <= x)%Q -> (x < inject_Z (z + 1))%Q -> Qfloor x = z.
Proof.
  intros Hlo Hhi.
  assert (z <= Qfloor x).
  { rewrite <- (Qfloor_Z z). apply Qfloor_resp_le, Hlo. }
  assert (Qfloor x < z + 1).
  { rewrite Zlt_Qlt. eapply Qle_lt_trans; [apply Qfloor_le|exact Hhi]. }
  lia.
Qed.

Lemma Qfloor_shift (x : Q) (k : Z) : Qfloor (x + inject_Z k) = Qfloor x + k.
Proof.
  apply Qfloor_unique.
  - rewrite inject_Z_plus. pose proof (Qfloor_le x). lra.
  - replace (Qfloor x + k + 1) with ((Qfloor x + 1) + k) by lia.
    rewrite inject_Z_plus. pose proof (Qlt_floor x). lra.
Qed.

Lemma Qle_bool_false (x y : Q) : Qle_bool x y = false <-> (y < x)%Q.
Proof.
  rewrite <- Bool.not_true_iff_false, Qle_bool_iff. split.
  - apply Qnot_le_lt.
  - apply Qlt_not_le.
Qed.

Lemma loop_fuel_pos lo hi : (1 <= loop_fuel lo hi)%nat.
Proof. unfold loop_fuel. lia. Qed.

(** A pass that runs leaves one pass less to run. *)
Lemma loop_fuel_step lo hi :
  Qle_bool lo hi = true -> loop_fuel lo hi = S (loop_fuel (lo + 1) hi).
Proof.
  intros Hle. apply Qle_bool_iff in Hle. unfold loop_fuel.
  assert (Hs : Qfloor (hi - (lo + 1)) = Qfloor (hi - lo) - 1).
  { replace (Qfloor (hi - lo) - 1) with (Qfloor (hi - lo) + -1) by lia.
    rewrite <- (Qfloor_shift (hi - lo) (-1)). apply Qfloor_comp.
    change (inject_Z (-1)) with (- (1))%Q. ring. }
  assert (0 <= Qfloor (hi - lo)).
  { rewrite <- (Qfloor_Z 0). apply Qfloor_resp_le.
    change (inject_Z 0) with 0%Q. lra. }
  rewrite Hs. lia.
Qed.

Section RectFacts.

Variable tile_path : string.

(** With enough fuel the inner loop ends on its own test; it keeps the
    state well formed, forgets no cell, and has seen the first cell of
    its row when the row is not empty. *)
Lemma rect_row_some fuel lat : forall lon max_lon st,
  (loop_fuel lon max_lon <= fuel)%nat ->
  scan_wf tile_path st ->
  exists st', rect_row fuel tile_path lat lon max_lon st = Some st' /\
              scan_wf tile_path st' /\
              (forall tag, tag ∈ done st -> tag ∈ done st') /\
              (Qle_bool lon max_lon = true -> (Qfloor lat, Qfloor lon) ∈ done st').
Proof.
  induction fuel as [|fuel IH]; intros lon max_lon st Hfuel Hwf.
  - pose proof (loop_fuel_pos lon max_lon). lia.
  - simpl. destruct (Qle_bool lon max_lon) eqn:Hle.
    + rewrite (loop_fuel_step _ _ Hle) in Hfuel.
      case_bool_decide as Hseen.
      * destruct (IH (lon + 1)%Q max_lon st) as (st' & Hrun & Hwf' & Hmono & _);
          [lia|exact Hwf|].
        exists st'. split; [exact Hrun|]. split; [exact Hwf'|].
        split; [exact Hmono|]. intros _. apply Hmono, Hseen.
      * destruct (IH (lon + 1)%Q max_lon (record_tag tile_path (Qfloor lat) (Qfloor lon) st))
          as (st' & Hrun & Hwf' & Hmono & _);
          [lia|apply record_tag_wf; assumption|].
        exists st'. split; [exact Hrun|]. split; [exact Hwf'|]. split.
        -- intros tag Htag. apply Hmono. rewrite record_tag_done.
           apply elem_of_cons. auto.
        -- intros _. apply Hmono. rewrite record_tag_done. apply elem_of_cons. auto.
    + exists st. split; [reflexivity|]. split; [exact Hwf|].
      split; [auto|discriminate].
Qed.

Lemma rect_rows_some fuel min_lon max_lon : forall n lat max_lat st,
  (loop_fuel lat max_lat <= n)%nat ->
  (loop_fuel min_lon max_lon <= fuel)%nat ->
  scan_wf tile_path st ->
  exists st', rect_rows n fuel tile_path lat max_lat min_lon max_lon st = Some st' /\
              scan_wf tile_path st' /\
              (forall tag, tag ∈ done st -> tag ∈ done st') /\
              (Qle_bool lat max_lat = true -> Qle_bool min_lon max_lon = true ->
               (Qfloor lat, Qfloor min_lon) ∈ done st').
Proof.
  induction n as [|n IH]; intros lat max_lat st Hn Hfuel Hwf.
  - pose proof (loop_fuel_pos lat max_lat). lia.
  - simpl. destruct (Qle_bool lat max_lat) eqn:Hle.
    + rewrite (loop_fuel_step _ _ Hle) in Hn.
      destruct (rect_row_some fuel lat min_lon max_lon st Hfuel Hwf)
        as (st1 & Hrow & Hwf1 & Hmono1 & Hfirst).
      rewrite Hrow.
      destruct (IH (lat + 1)%Q max_lat st1) as (st' & Hrun & Hwf' & Hmono & _);
        [lia|exact Hfuel|exact Hwf1|].
      exists st'. split; [exact Hrun|]. split; [exact Hwf'|]. split.
      * intros tag Htag. apply Hmono, Hmono1, Htag.
      * intros _ Hlon. apply Hmono, Hfirst, Hlon.
    + exists st. split; [reflexivity|]. split; [exact Hwf|].
      split; [auto|discriminate].
Qed.

(** The scan of a rectangle ends, with fuel [rect_fuel] or more. *)
Lemma rect_scan_some fuel min_lat max_lat min_lon max_lon :
  (rect_fuel min_lat max_lat min_lon max_lon <= fuel)%nat ->
  exists st, rect_scan fuel tile_path min_lat max_lat min_lon max_lon = Some st /\
             scan_wf tile_path st /\
             (Qle_bool min_lat max_lat = true -> Qle_bool min_lon max_lon = true ->
              (Qfloor min_lat, Qfloor min_lon) ∈ done st).
Proof.
  intros Hfuel. unfold rect_fuel in Hfuel. unfold rect_scan.
  destruct (rect_rows_some fuel min_lon max_lon fuel min_lat max_lat scan_init)
    as (st & Hrun & Hwf & _ & Hfirst); [lia|lia|apply scan_init_wf|].
  exists st. auto.
Qed.

(** Inverted bounds: no pass of the loop body runs. *)
Lemma rect_rows_empty_rows fuel min_lon max_lon : forall n lat max_lat st,
  (loop_fuel lat max_lat <= n)%nat ->
  (1 <= fuel)%nat ->
  Qle_bool min_lon max_lon = false ->
  rect_rows n fuel tile_path lat max_lat min_lon max_lon st = Some st.
Proof.
  induction n as [|n IH]; intros lat max_lat st Hn Hfuel Hlon.
  - pose proof (loop_fuel_pos lat max_lat). lia.
  - simpl. destruct (Qle_bool lat max_lat) eqn:Hle; [|reflexivity].
    rewrite (loop_fuel_step _ _ Hle) in Hn.
    destruct fuel as [|fuel]; [lia|]. simpl. rewrite Hlon.
    apply (IH (lat + 1)%Q max_lat st); [lia|lia|exact Hlon].
Qed.

Lemma rect_scan_degenerate fuel min_lat max_lat min_lon max_lon :
  (max_lat < min_lat)%Q \/ (max_lon < min_lon)%Q ->
  (rect_fuel min_lat max_lat min_lon max_lon <= fuel)%nat ->
  rect_scan fuel tile_path min_lat max_lat min_lon max_lon = Some scan_init.
Proof.
  intros Hdeg Hfuel. unfold rect_fuel in Hfuel. unfold rect_scan.
  pose proof (loop_fuel_pos min_lat max_lat).
  destruct Hdeg as [Hlat|Hlon].
  - apply Qle_bool_false in Hlat. destruct fuel as [|fuel]; [lia|].
    simpl. rewrite Hlat. reflexivity.
  - apply Qle_bool_false in Hlon. apply rect_rows_empty_rows; [lia|lia|exact Hlon].
Qed.

End RectFacts.

(** ** Effects: loops, tiles, archives *)

Lemma for_each_app {A} (body : A -> M unit) (l1 l2 : list A) (w : world) :
  for_each (l1 ++ l2) body w =
  match for_each l1 body w with
  | (Ret _, w1) => for_each l2 body w1
  | (Raise e, w1) => (Raise e, w1)
  end.
Proof.
  revert w. induction l1 as [|x l1 IH]; intros w; simpl.
  - reflexivity.
  - unfold bind. destruct (body x w) as [[[]|e] w1]; [apply IH|reflexivity].
Qed.

Section ServerFacts.

Variable cfg : config.
Variable origin : string -> option (list byte).
Variable gunzip : list byte -> option (list byte).
Variable now : Q.

#[local] Abbreviation add_tile' := (add_tile origin gunzip now).
#[local] Abbreviation tile_fails' := (tile_fails origin gunzip).

(** What one pass of the tile loop does, case by case. *)
Lemma add_tile_present url_path zipthis fn w t b :
  disk w !! fn = Some (File t (Raw b)) ->
  add_tile' url_path zipthis fn w =
  match gunzip b with
  | Some c => zip_writestr now zipthis (PyStr.drop_last 3 (PyStr.basename fn)) c w
  | None => (Raise (BadGzipFile fn), w)
  end.
Proof.
  intros Hfn. unfold add_tile, bind, path_exists, gzip_read.
  rewrite bool_decide_eq_true_2 by (rewrite Hfn; eauto).
  destruct url_path; simpl; unfold ret; rewrite Hfn; destruct (gunzip b); reflexivity.
Qed.

Lemma add_tile_is_zip url_path zipthis fn w t es :
  disk w !! fn = Some (File t (ZipArchive es)) ->
  add_tile' url_path zipthis fn w = (Raise (BadGzipFile fn), w).
Proof.
  intros Hfn. unfold add_tile, bind, path_exists, gzip_read.
  rewrite bool_decide_eq_true_2 by (rewrite Hfn; eauto).
  destruct url_path; simpl; unfold ret; rewrite Hfn; reflexivity.
Qed.

Lemma add_tile_absent_no_origin zipthis fn w :
  disk w !! fn = None ->
  add_tile' None zipthis fn w = (Raise (FileNotFoundError fn), w).
Proof.
  intros Hfn. unfold add_tile, bind, path_exists, gzip_read, ret.
  rewrite Hfn. reflexivity.
Qed.

(** The world once [g] has been fetched from [url] and stored at [fn]. *)
Lemma add_tile_absent_origin url zipthis fn w :
  disk w !! fn = None ->
  let url_fn := url +:+ PyStr.basename fn in
  let w1 := {| disk := disk w; requested := url_fn :: requested w |} in
  add_tile' (Some url) zipthis fn w =
  match origin url_fn with
  | None => (Raise (URLError url_fn), w1)
  | Some g =>
      let w2 := set_disk (<[fn := File now (Raw g)]> (disk w)) w1 in
      match gunzip g with
      | Some c => zip_writestr now zipthis (PyStr.drop_last 3 (PyStr.basename fn)) c w2
      | None => (Raise (BadGzipFile fn), w2)
      end
  end.
Proof.
  intros Hfn url_fn w1. unfold add_tile, bind, path_exists.
  rewrite bool_decide_eq_false_2 by (rewrite Hfn; intros [? ?]; discriminate).
  simpl. unfold urlopen, bind. fold url_fn. destruct (origin url_fn) as [g|]; [|reflexivity].
  unfold run_steps, store_tile, for_each, bind, open_w, write, ret, set_disk; simpl.
  rewrite lookup_insert_eq, insert_insert_eq. simpl.
  unfold gzip_read; simpl. rewrite lookup_insert_eq.
  destruct (gunzip g); reflexivity.
Qed.

Lemma zip_writestr_archive p name c w es :
  is_archive p es w ->
  exists w', zip_writestr now p name c w = (Ret tt, w') /\
             is_archive p (es ++ [(name, c)]) w' /\
             requested w' = requested w /\
             forall q, q <> p -> disk w' !! q = disk w !! q.
Proof.
  intros [t Hp]. unfold zip_writestr. rewrite Hp. eexists. split; [reflexivity|].
  split; [|split].
  - exists now. simpl. apply lookup_insert_eq.
  - reflexivity.
  - intros q Hq. simpl. apply lookup_insert_ne. congruence.
Qed.

(** While the archive is open, a pass of the tile loop either adds one
    entry to it or raises and leaves its entries as they were; it raises
    exactly when the tile cannot be had. *)
Lemma add_tile_archive url_path zipthis fn w es :
  is_archive zipthis es w ->
  match add_tile' url_path zipthis fn w with
  | (Ret _, w') =>
      (exists c, is_archive zipthis (es ++ [(PyStr.drop_last 3 (PyStr.basename fn), c)]) w') /\
      ~ tile_fails' url_path fn w
  | (Raise _, w') => is_archive zipthis es w' /\ tile_fails' url_path fn w
  end.
Proof.
  intros Harch. unfold tile_fails.
  destruct (disk w !! fn) as [[t [b|es0]]|] eqn:Hfn.
  - rewrite (add_tile_present _ _ _ _ _ _ Hfn). destruct (gunzip b) as [c|] eqn:Hb.
    + destruct (zip_writestr_archive zipthis (PyStr.drop_last 3 (PyStr.basename fn)) c w es Harch)
        as (w' & -> & Harch' & _). split; [eauto|congruence].
    + auto.
  - rewrite (add_tile_is_zip _ _ _ _ _ _ Hfn). auto.
  - destruct url_path as [url|].
    + rewrite (add_tile_absent_origin _ _ _ _ Hfn). cbv zeta.
      destruct (origin (url +:+ PyStr.basename fn)) as [g|]; [|auto].
      assert (Hne : fn <> zipthis).
      { intros ->. destruct Harch as [t Ht]. congruence. }
      set (w2 := set_disk _ _).
      assert (Harch2 : is_archive zipthis es w2).
      { destruct Harch as [t Ht]. exists t. subst w2. simpl.
        rewrite lookup_insert_ne by exact Hne. exact Ht. }
      destruct (gunzip g) as [c|] eqn:Hg.
      * destruct (zip_writestr_archive zipthis (PyStr.drop_last 3 (PyStr.basename fn)) c w2 es Harch2)
          as (w' & -> & Harch' & _). split; [eauto|congruence].
      * auto.
    + rewrite (add_tile_absent_no_origin _ _ _ Hfn). auto.
Qed.

(** A tile that is on disk is resolved without the origin and without a
    write outside the archive; no file goes away. *)
Lemma add_tile_no_fetch url_path zipthis fn w :
  is_Some (disk w !! fn) ->
  requested (add_tile' url_path zipthis fn w).2 = requested w /\
  (forall p, p <> zipthis -> disk (add_tile' url_path zipthis fn w).2 !! p = disk w !! p) /\
  (forall p, is_Some (disk w !! p) -> is_Some (disk (add_tile' url_path zipthis fn w).2 !! p)).
Proof.
  intros [[t [b|es]] Hfn].
  - rewrite (add_tile_present _ _ _ _ _ _ Hfn). destruct (gunzip b) as [c|]; [|auto].
    unfold zip_writestr. destruct (disk w !! zipthis) as [[t' [b'|es']]|]; simpl; auto.
    split; [reflexivity|]. split.
    + intros p Hp. apply lookup_insert_ne. congruence.
    + intros p Hp. destruct (decide (zipthis = p)) as [->|Hne].
      * rewrite lookup_insert_eq. eauto.
      * rewrite lookup_insert_ne by exact Hne. exact Hp.
  - rewrite (add_tile_is_zip _ _ _ _ _ _ Hfn). auto.
Qed.

(** The origin is asked exactly when the tile is absent and an origin is
    configured. *)
Lemma add_tile_fetch_iff url_path zipthis fn w :
  requested (add_tile' url_path zipthis fn w).2 <> requested w <->
  disk w !! fn = None /\ is_Some url_path.
Proof.
  assert (Hgrow : forall (u : string) (l : list string), u :: l <> l).
  { intros u l H. apply (f_equal length) in H. simpl in H. lia. }
  destruct (disk w !! fn) as [f|] eqn:Hfn.
  - destruct (add_tile_no_fetch url_path zipthis fn w) as [Hreq _]; [rewrite Hfn; eauto|].
    rewrite Hreq. split; [congruence|]. intros [? _]. discriminate.
  - destruct url_path as [url|].
    + rewrite (add_tile_absent_origin _ _ _ _ Hfn). cbv zeta.
      split; [eauto|]. intros _.
      destruct (origin (url +:+ PyStr.basename fn)) as [g|]; [|apply Hgrow].
      destruct (gunzip g) as [c|]; [|apply Hgrow].
      unfold zip_writestr; simpl.
      destruct (_ !! zipthis) as [[t' [b'|es']]|]; simpl; apply Hgrow.
    + rewrite (add_tile_absent_no_origin _ _ _ Hfn). simpl. split; [congruence|].
      intros [_ [? ?]]. discriminate.
Qed.

(** A tile that went through is on disk afterwards. *)
Lemma add_tile_ok_present url_path zipthis fn w w' :
  add_tile' url_path zipthis fn w = (Ret tt, w') -> is_Some (disk w' !! fn).
Proof.
  assert (Hzip : forall name c w0 w1,
             is_Some (disk w0 !! fn) ->
             zip_writestr now zipthis name c w0 = (Ret tt, w1) ->
             is_Some (disk w1 !! fn)).
  { intros name c w0 w1 Hfn. unfold zip_writestr.
    destruct (disk w0 !! zipthis) as [[t' [b'|es']]|]; try discriminate.
    intros [= <-]. simpl. destruct (decide (zipthis = fn)) as [->|Hne].
    - rewrite lookup_insert_eq. eauto.
    - rewrite lookup_insert_ne by exact Hne. exact Hfn. }
  destruct (disk w !! fn) as [[t [b|es]]|] eqn:Hfn.
  - rewrite (add_tile_present _ _ _ _ _ _ Hfn). destruct (gunzip b); [|discriminate].
    apply Hzip. rewrite Hfn. eauto.
  - rewrite (add_tile_is_zip _ _ _ _ _ _ Hfn). discriminate.
  - destruct url_path as [url|].
    + rewrite (add_tile_absent_origin _ _ _ _ Hfn). cbv zeta.
      destruct (origin (url +:+ PyStr.basename fn)) as [g|]; [|discriminate].
      destruct (gunzip g); [|discriminate].
      apply Hzip. simpl. rewrite lookup_insert_eq. eauto.
    + rewrite (add_tile_absent_no_origin _ _ _ Hfn). discriminate.
Qed.

(** The tile loop on an open archive: one entry per tile that went
    through, and on an exception strictly fewer entries than tiles. *)
Lemma tiles_archive url_path zipthis l : forall w es,
  is_archive zipthis es w ->
  match for_each l (add_tile' url_path zipthis) w with
  | (Ret _, w') =>
      exists es', is_archive zipthis (es ++ es') w' /\ length es' = length l
  | (Raise _, w') =>
      exists es', is_archive zipthis (es ++ es') w' /\ (length es' < length l)%nat
  end.
Proof.
  induction l as [|fn l IH]; intros w es Harch; simpl.
  - exists []. rewrite app_nil_r. auto.
  - unfold bind. pose proof (add_tile_archive url_path zipthis fn w es Harch) as Hstep.
    destruct (add_tile' url_path zipthis fn w) as [[[]|e] w1].
    + destruct Hstep as [[c Harch1] _]. specialize (IH w1 _ Harch1).
      destruct (for_each l (add_tile' url_path zipthis) w1) as [[[]|e] w2];
        destruct IH as (es' & Harch2 & Hlen);
        exists ((PyStr.drop_last 3 (PyStr.basename fn), c) :: es');
        rewrite <- app_assoc in Harch2; simpl in *; split; auto; lia.
    + destruct Hstep as [Harch1 _]. exists []. rewrite app_nil_r. simpl. split; [auto|lia].
Qed.

Lemma tiles_no_fetch url_path zipthis l : forall w,
  (forall fn, fn ∈ l -> is_Some (disk w !! fn)) ->
  requested (for_each l (add_tile' url_path zipthis) w).2 = requested w /\
  forall p, p <> zipthis ->
            disk (for_each l (add_tile' url_path zipthis) w).2 !! p = disk w !! p.
Proof.
  induction l as [|fn l IH]; intros w Hall; simpl.
  - auto.
  - unfold bind.
    destruct (add_tile_no_fetch url_path zipthis fn w) as (Hreq & Hdisk & Hkeep).
    { apply Hall, elem_of_cons. auto. }
    destruct (add_tile' url_path zipthis fn w) as [[[]|e] w1]; simpl in *; [|auto].
    destruct (IH w1) as [Hreq' Hdisk'].
    { intros fn' Hfn'. apply Hkeep, Hall, elem_of_cons. auto. }
    split; [congruence|]. intros p Hp. rewrite Hdisk', Hdisk; auto.
Qed.

#[local] Abbreviation compressFiles' := (compressFiles cfg origin gunzip now).

Lemma zip_open_archive p w : is_archive p [] (zip_open now p w).2.
Proof. exists now. simpl. apply lookup_insert_eq. Qed.

(** [compressFiles] without its monadic wrapping. *)
Lemma compressFiles_unfold fileList uuidkey version w :
  compressFiles' fileList uuidkey version w =
  match url_path_of cfg version with
  | None => (Raise (UnboundLocalError "url_path"), w)
  | Some url_path =>
      match for_each fileList (add_tile' url_path (zip_path cfg uuidkey))
              (zip_open now (zip_path cfg uuidkey) w).2 with
      | (Ret _, w1) => (Ret true, w1)
      | (Raise _, w1) => (Ret false, w1)
      end
  end.
Proof.
  unfold compressFiles. destruct (url_path_of cfg version) as [url_path|]; [|reflexivity].
  unfold try_except, bind, zip_open. cbn [snd].
  destruct (for_each fileList _ _) as [[[]|e] w1]; reflexivity.
Qed.

(** [compressFiles] on a version with a tile root: it returns, never
    raises, and the archive is on disk either way, complete on success
    and short on failure. *)
Lemma compressFiles_returns fileList uuidkey version url_path w :
  url_path_of cfg version = Some url_path ->
  exists b w' es,
    compressFiles' fileList uuidkey version w = (Ret b, w') /\
    is_archive (zip_path cfg uuidkey) es w' /\
    (if b then length es = length fileList else (length es < length fileList)%nat).
Proof.
  intros Hurl. rewrite compressFiles_unfold, Hurl.
  pose proof (tiles_archive url_path (zip_path cfg uuidkey) fileList _ []
                (zip_open_archive (zip_path cfg uuidkey) w)) as Hloop.
  destruct (for_each fileList _ _) as [[[]|e] w1]; destruct Hloop as (es & Harch & Hlen).
  - exists true, w1, es. auto.
  - exists false, w1, es. auto.
Qed.


Lemma compressFiles_no_fetch fileList uuidkey version w :
  (forall fn, fn ∈ fileList -> is_Some (disk w !! fn)) ->
  requested (compressFiles' fileList uuidkey version w).2 = requested w /\
  forall p, p <> zip_path cfg uuidkey ->
            disk (compressFiles' fileList uuidkey version w).2 !! p = disk w !! p.
Proof.
  intros Hall. rewrite compressFiles_unfold.
  destruct (url_path_of cfg version) as [url_path|]; [|auto].
  destruct (tiles_no_fetch url_path (zip_path cfg uuidkey) fileList
              (zip_open now (zip_path cfg uuidkey) w).2) as [Hreq Hdisk].
  { intros fn Hfn. simpl. destruct (decide (zip_path cfg uuidkey = fn)) as [->|Hne].
    - rewrite lookup_insert_eq. eauto.
    - rewrite lookup_insert_ne by exact Hne. apply Hall, Hfn. }
  assert (Hopen : forall p, p <> zip_path cfg uuidkey ->
            disk (zip_open now (zip_path cfg uuidkey) w).2 !! p = disk w !! p).
  { intros p Hp. simpl. apply lookup_insert_ne. congruence. }
  destruct (for_each fileList _ _) as [[[]|e] w1]; cbn [snd] in *;
    (split; [exact Hreq|]; intros p Hp; rewrite Hdisk by exact Hp; apply Hopen, Hp).
Qed.

(** ** Effects: the sweep *)

#[local] Abbreviation sweep' := (sweep cfg now).
#[local] Abbreviation sweep_entry' := (sweep_entry cfg now).

(** Older than 24 hours at the clock reading [now]. *)
Lemma sweep_entry_missing f w :
  disk w !! PyStr.path_join (output_path cfg) f = None ->
  sweep_entry' f w = (Raise (FileNotFoundError (PyStr.path_join (output_path cfg) f)), w).
Proof. intros Hf. unfold sweep_entry, bind, os_stat_mtime. rewrite Hf. reflexivity. Qed.

Lemma sweep_entry_present f w file :
  disk w !! PyStr.path_join (output_path cfg) f = Some file ->
  sweep_entry' f w =
  (Ret tt,
   if expired now file
   then set_disk (delete (PyStr.path_join (output_path cfg) f) (disk w)) w
   else w).
Proof.
  intros Hf. unfold sweep_entry, bind, os_stat_mtime, expired. rewrite Hf.
  destruct (Qlt_bool _ _); [|reflexivity].
  unfold os_remove. rewrite Hf. reflexivity.
Qed.

End ServerFacts.

(** ** Effects: the sweep and the handlers *)

Lemma append_inj_r (a b c : string) : a +:+ b = a +:+ c -> b = c.
Proof.
  induction a as [|ch a IH]; simpl; intros H.
  - exact H.
  - injection H as H. apply IH, H.
Qed.

Lemma path_join_inj (dir f g : string) :
  PyStr.path_join dir f = PyStr.path_join dir g -> f = g.
Proof.
  unfold PyStr.path_join. intros H.
  apply append_inj_r in H. apply append_inj_r in H. exact H.
Qed.


Section HandlerFacts.

Variable cfg : config.
Variable origin : string -> option (list byte).
Variable gunzip : list byte -> option (list byte).
Variable add_offset : Q -> Q -> Q -> Q -> string -> Q * Q.
Variable now : Q.

#[local] Abbreviation sweep' := (sweep cfg now).
#[local] Abbreviation out f := (PyStr.path_join (output_path cfg) f).

(** A listing without repeats whose entries are all on disk is swept to
    the end: what is expired goes, everything else stays. *)
Lemma sweep_returns listing : forall w,
  NoDup listing ->
  (forall f, f ∈ listing -> is_Some (disk w !! out f)) ->
  exists w', sweep' listing w = (Ret tt, w') /\
             requested w' = requested w /\
             (forall p file, disk w !! p = Some file -> expired now file = false ->
                             disk w' !! p = Some file) /\
             (forall p, disk w !! p = None -> disk w' !! p = None) /\
             (forall f file, f ∈ listing -> disk w !! out f = Some file ->
                             expired now file = true -> disk w' !! out f = None).
Proof.
  induction listing as [|f listing IH]; intros w Hnd Hall.
  - exists w. split; [reflexivity|]. split; [reflexivity|]. split; [auto|]. split; [auto|].
    intros f file Hf. apply elem_of_nil in Hf. contradiction.
  - apply NoDup_cons in Hnd as [Hf Hnd].
    destruct (Hall f) as [file Hfile]; [apply elem_of_cons; auto|].
    unfold sweep. simpl. unfold bind. rewrite (sweep_entry_present cfg now f w file Hfile).
    set (w1 := if expired now file then _ else w).
    assert (Hw1 : forall p, p <> out f -> disk w1 !! p = disk w !! p).
    { intros p Hp. subst w1. destruct (expired now file); [|reflexivity].
      simpl. apply lookup_delete_ne. congruence. }
    assert (Hreq1 : requested w1 = requested w).
    { subst w1. destruct (expired now file); reflexivity. }
    destruct (IH w1 Hnd) as (w' & Hrun & Hreq & Hfresh & Hnone & Hold).
    { intros g Hg. rewrite Hw1; [apply Hall, elem_of_cons; auto|].
      intros Heq. apply path_join_inj in Heq. subst g. contradiction. }
    fold (sweep cfg now listing). rewrite Hrun.
    exists w'. split; [reflexivity|]. split; [congruence|]. split; [|split].
    + intros p file0 Hp Hfresh0. apply Hfresh; [|exact Hfresh0].
      destruct (decide (p = out f)) as [->|Hne].
      * assert (file0 = file) by congruence. subst file0.
        subst w1. rewrite Hfresh0. exact Hp.
      * rewrite Hw1 by exact Hne. exact Hp.
    + intros p Hp. apply Hnone. destruct (decide (p = out f)) as [->|Hne].
      * congruence.
      * rewrite Hw1 by exact Hne. exact Hp.
    + intros g file0 Hg Hgfile Hexp. apply elem_of_cons in Hg as [->|Hg].
      * apply Hnone. assert (file0 = file) by congruence. subst file0.
        subst w1. rewrite Hexp. simpl. apply lookup_delete_eq.
      * apply (Hold g file0 Hg); [|exact Hexp].
        rewrite Hw1; [exact Hgfile|].
        intros Heq. apply path_join_inj in Heq. subst g. contradiction.
Qed.

(** The sweep stops at the first entry that is gone. *)
Lemma sweep_aborts pre f post w w1 :
  sweep' pre w = (Ret tt, w1) ->
  disk w1 !! out f = None ->
  sweep' (pre ++ f :: post) w = (Raise (FileNotFoundError (out f)), w1).
Proof.
  intros Hpre Hf. unfold sweep in *. rewrite for_each_app, Hpre. simpl.
  unfold bind. rewrite (sweep_entry_missing cfg now f w1 Hf). reflexivity.
Qed.

(** The tail of both handlers, without its monadic wrapping. *)
Lemma respond_unfold st uuidkey version listing w :
  as_http_500 (build_and_respond cfg origin gunzip now st uuidkey version listing) w =
  match compressFiles cfg origin gunzip now (dict_fromkeys (filelist st)) uuidkey version w with
  | (Raise e, w1) => (Raise (HTTPException 500 e), w1)
  | (Ret b, w1) =>
      match sweep' listing w1 with
      | (Raise e, w2) => (Raise (HTTPException 500 e), w2)
      | (Ret _, w2) =>
          (Ret (if b then response_ok uuidkey (outsideLat st) else response_failed uuidkey), w2)
      end
  end.
Proof.
  unfold as_http_500, try_except, build_and_respond, bind.
  destruct (compressFiles _ _ _ _ _ _ _ w) as [[b|e] w1]; [|reflexivity].
  destruct (sweep' listing w1) as [[[]|e] w2]; [|reflexivity].
  destruct b; reflexivity.
Qed.

Lemma generate_unfold fuel uuidkey listing a w :
  generate cfg origin gunzip add_offset now fuel uuidkey listing a w =
  match resolve_area cfg add_offset fuel a with
  | None => None
  | Some st =>
      Some (as_http_500
              (build_and_respond cfg origin gunzip now st uuidkey (area_version a) listing) w)
  end.
Proof. destruct a as [r|r]; reflexivity. Qed.

(** Whatever state a scan returns is well formed, whatever the fuel. *)
Lemma rect_row_wf tile_path fuel lat : forall lon max_lon st st',
  rect_row fuel tile_path lat lon max_lon st = Some st' ->
  scan_wf tile_path st -> scan_wf tile_path st'.
Proof.
  induction fuel as [|fuel IH]; intros lon max_lon st st'; simpl; [discriminate|].
  destruct (Qle_bool lon max_lon).
  - case_bool_decide as Hseen; intros Hrun Hwf.
    + apply (IH _ _ _ _ Hrun Hwf).
    + apply (IH _ _ _ _ Hrun). apply record_tag_wf; assumption.
  - intros [= <-]. auto.
Qed.

Lemma rect_rows_wf tile_path fuel min_lon max_lon : forall n lat max_lat st st',
  rect_rows n fuel tile_path lat max_lat min_lon max_lon st = Some st' ->
  scan_wf tile_path st -> scan_wf tile_path st'.
Proof.
  induction n as [|n IH]; intros lat max_lat st st'; simpl; [discriminate|].
  destruct (Qle_bool lat max_lat).
  - destruct (rect_row fuel tile_path lat min_lon max_lon st) as [st1|] eqn:Hrow;
      [|discriminate].
    intros Hrun Hwf. apply (IH _ _ _ _ Hrun). apply (rect_row_wf _ _ _ _ _ _ _ Hrow Hwf).
  - intros [= <-]. auto.
Qed.

Lemma resolve_area_wf fuel a st :
  resolve_area cfg add_offset fuel a = Some st ->
  scan_wf (tile_path_of cfg (area_version a)) st.
Proof.
  destruct a as [r|r]; simpl.
  - intros [= <-]. apply circle_scan_wf.
  - unfold rect_scan. intros Hrun.
    apply (rect_rows_wf _ _ _ _ _ _ _ _ _ Hrun), scan_init_wf.
Qed.

(** With the fuel of the area the scan returns; a proper request has
    scanned a cell. *)
Lemma resolve_area_some fuel a :
  (area_fuel a <= fuel)%nat ->
  exists st, resolve_area cfg add_offset fuel a = Some st /\
             (proper a -> done st <> []).
Proof.
  destruct a as [r|r]; simpl; intros Hfuel.
  - eexists. split; [reflexivity|]. intros Hr Hnil.
    assert (Hin : circle_cell add_offset (GenerateRequest.lat r) (GenerateRequest.lon r)
                    (- GenerateRequest.radius r) (- GenerateRequest.radius r)
                  ∈ done (circle_scan add_offset (tile_path_of cfg (GenerateRequest.version r))
                            (GenerateRequest.lat r) (GenerateRequest.lon r)
                            (GenerateRequest.radius r))).
    { apply circle_scan_done. eexists _, _. split; [|split; [|reflexivity]]; lia. }
    rewrite Hnil in Hin. apply elem_of_nil in Hin. exact Hin.
  - destruct (rect_scan_some (tile_path_of cfg (GenerateRectangleRequest.version r)) fuel
                _ _ _ _ Hfuel) as (st & Hrun & _ & Hfirst).
    exists st. split; [exact Hrun|]. intros [Hlat Hlon] Hnil.
    apply Qle_bool_iff in Hlat, Hlon. specialize (Hfirst Hlat Hlon).
    rewrite Hnil in Hfirst. apply elem_of_nil in Hfirst. exact Hfirst.
Qed.


Lemma flag_of_cases cells :
  (Forall inside cells /\ flag_of cells = None) \/
  (~ Forall inside cells /\ flag_of cells = Some true).
Proof.
  unfold flag_of. case_bool_decide; auto.
Qed.

End HandlerFacts.

(** ** The cells a rectangle scan visits *)

Lemma Qfloor_succ (x : Q) : Qfloor (x + 1) = Qfloor x + 1.
Proof. apply (Qfloor_shift x 1). Qed.

Lemma Qfloor_gap_step (lo hi : Q) : Qfloor (hi - (lo + 1)) = Qfloor (hi - lo) - 1.
Proof.
  replace (Qfloor (hi - lo) - 1) with (Qfloor (hi - lo) + -1) by lia.
  rewrite <- (Qfloor_shift (hi - lo) (-1)). apply Qfloor_comp.
  change (inject_Z (-1)) with (- (1))%Q. ring.
Qed.

Lemma Qfloor_gap_nonneg (lo hi : Q) : Qle_bool lo hi = true -> 0 <= Qfloor (hi - lo).
Proof.
  intros Hle. apply Qle_bool_iff in Hle.
  rewrite <- (Qfloor_Z 0). apply Qfloor_resp_le.
  change (inject_Z 0) with 0%Q. lra.
Qed.

Lemma Qfloor_gap_neg (lo hi : Q) : Qle_bool lo hi = false -> Qfloor (hi - lo) < 0.
Proof.
  intros Hlt. apply Qle_bool_false in Hlt.
  rewrite Zlt_Qlt. eapply Qle_lt_trans; [apply Qfloor_le|].
  change (inject_Z 0) with 0%Q. lra.
Qed.

(** The step count of a loop falls short of the floor of its bound by at
    most one: [floor lo + floor (hi - lo)] is [floor hi] or one less. *)
Lemma Qfloor_gap_bounds (lo hi : Q) :
  Qfloor hi - 1 <= Qfloor lo + Qfloor (hi - lo) <= Qfloor hi.
Proof.
  pose proof (Qfloor_le lo) as Hlo1. pose proof (Qlt_floor lo) as Hlo2.
  pose proof (Qfloor_le hi) as Hhi1. pose proof (Qlt_floor hi) as Hhi2.
  pose proof (Qfloor_le (hi - lo)) as Hd1. pose proof (Qlt_floor (hi - lo)) as Hd2.
  rewrite inject_Z_plus in Hlo2, Hhi2, Hd2.
  change (inject_Z 1) with 1%Q in Hlo2, Hhi2, Hd2.
  split.
  - assert (Hlt : (inject_Z (Qfloor hi) < inject_Z (Qfloor lo + Qfloor (hi - lo) + 2))%Q).
    { rewrite !inject_Z_plus. change (inject_Z 2) with 2%Q. lra. }
    rewrite <- Zlt_Qlt in Hlt. lia.
  - assert (Hlt : (inject_Z (Qfloor lo + Qfloor (hi - lo)) < inject_Z (Qfloor hi + 1))%Q).
    { rewrite !inject_Z_plus. change (inject_Z 1) with 1%Q. lra. }
    rewrite <- Zlt_Qlt in Hlt. lia.
Qed.

Section RectCells.

Variable tile_path : string.

(** A row that ends has added the cells of its latitude from the floor
    of [lon] on, one per pass. *)
Lemma rect_row_cells fuel lat : forall lon max_lon st st',
  rect_row fuel tile_path lat lon max_lon st = Some st' ->
  forall tag,
    tag ∈ done st' <->
    tag ∈ done st \/
    (tag.1 = Qfloor lat /\ Qfloor lon <= tag.2 <= Qfloor lon + Qfloor (max_lon - lon)).
Proof.
  induction fuel as [|fuel IH]; intros lon max_lon st st'; cbn [rect_row]; [discriminate|].
  destruct (Qle_bool lon max_lon) eqn:Hle.
  - pose proof (Qfloor_gap_nonneg _ _ Hle) as Hgap.
    case_bool_decide as Hseen; intros Hrun [t1 t2]; rewrite (IH _ _ _ _ Hrun (t1, t2));
      rewrite Qfloor_succ, Qfloor_gap_step; cbn [fst snd].
    + split.
      * intros [H|[H1 H2]]; [auto|]. right. lia.
      * intros [H|[H1 H2]]; [auto|].
        destruct (decide (t2 = Qfloor lon)) as [->|Hne]; [left; subst t1; exact Hseen|].
        right. lia.
    + rewrite record_tag_done, elem_of_cons. split.
      * intros [[[= -> ->]|H]|[H1 H2]]; [right; lia|auto|right; lia].
      * intros [H|[H1 H2]]; [auto|].
        destruct (decide (t2 = Qfloor lon)) as [->|Hne]; [left; left; subst t1; reflexivity|].
        right. lia.
  - pose proof (Qfloor_gap_neg _ _ Hle) as Hgap.
    intros [= <-] tag. split; [auto|]. intros [H|[_ H]]; [exact H|lia].
Qed.

Lemma rect_rows_cells fuel min_lon max_lon : forall n lat max_lat st st',
  rect_rows n fuel tile_path lat max_lat min_lon max_lon st = Some st' ->
  forall tag,
    tag ∈ done st' <->
    tag ∈ done st \/
    (Qfloor lat <= tag.1 <= Qfloor lat + Qfloor (max_lat - lat) /\
     Qfloor min_lon <= tag.2 <= Qfloor min_lon + Qfloor (max_lon - min_lon)).
Proof.
  induction n as [|n IH]; intros lat max_lat st st'; cbn [rect_rows]; [discriminate|].
  destruct (Qle_bool lat max_lat) eqn:Hle.
  - pose proof (Qfloor_gap_nonneg _ _ Hle) as Hgap.
    destruct (rect_row fuel tile_path lat min_lon max_lon st) as [st1|] eqn:Hrow;
      [|discriminate].
    intros Hrun [t1 t2]. rewrite (IH _ _ _ _ Hrun (t1, t2)).
    rewrite (rect_row_cells _ _ _ _ _ _ Hrow (t1, t2)).
    rewrite Qfloor_succ, Qfloor_gap_step. cbn [fst snd]. split.
    + intros [[H|[H1 H2]]|[H1 H2]]; [auto|right; lia|right; lia].
    + intros [H|[H1 H2]]; [auto|].
      destruct (decide (t1 = Qfloor lat)) as [->|Hne]; [left; right; lia|right; lia].
  - pose proof (Qfloor_gap_neg _ _ Hle) as Hgap.
    intros [= <-] tag. split; [auto|]. intros [H|[H _]]; [exact H|lia].
Qed.

(** The rectangle scan, for fuel [rect_fuel] or more: it ends, and the
    cells it has visited are those of the grid that starts at the floors
    of the lower bounds and has [floor (max - min) + 1] rows and
    columns.  That grid lies within the one from floor to floor and can
    fall one row and one column short of it. *)
Lemma rect_scan_cells fuel min_lat max_lat min_lon max_lon :
  (rect_fuel min_lat max_lat min_lon max_lon <= fuel)%nat ->
  exists st,
    rect_scan fuel tile_path min_lat max_lat min_lon max_lon = Some st /\
    scan_wf tile_path st /\
    forall tag,
      tag ∈ done st <->
      Qfloor min_lat <= tag.1 <= Qfloor min_lat + Qfloor (max_lat - min_lat) /\
      Qfloor min_lon <= tag.2 <= Qfloor min_lon + Qfloor (max_lon - min_lon).
Proof.
  intros Hfuel.
  destruct (rect_scan_some tile_path fuel _ _ _ _ Hfuel) as (st & Hrun & Hwf & _).
  exists st. split; [exact Hrun|]. split; [exact Hwf|]. intros tag.
  unfold rect_scan in Hrun. rewrite (rect_rows_cells _ _ _ _ _ _ _ _ Hrun tag).
  simpl. rewrite elem_of_nil. tauto.
Qed.

Lemma elem_of_claimed_cells min_lat max_lat min_lon max_lon tag :
  tag ∈ claimed_cells min_lat max_lat min_lon max_lon <->
  Qfloor min_lat <= tag.1 <= Qfloor max_lat /\ Qfloor min_lon <= tag.2 <= Qfloor max_lon.
Proof.
  unfold claimed_cells. rewrite list_elem_of_bind. split.
  - intros (a & Hin & Ha). apply list_elem_of_bind in Hin as (b & Hin & Hb).
    apply list_elem_of_singleton in Hin as ->.
    apply elem_of_py_range in Ha, Hb. simpl. lia.
  - intros [H1 H2]. exists tag.1. split; [|apply elem_of_py_range; lia].
    apply list_elem_of_bind. exists tag.2. split; [|apply elem_of_py_range; lia].
    destruct tag. apply list_elem_of_here.
Qed.

(** Every visited cell is one of the claimed ones; the converse needs
    the fractional part of each lower bound not to exceed that of the
    upper bound. *)
Lemma rect_scan_within_claimed fuel min_lat max_lat min_lon max_lon st tag :
  (rect_fuel min_lat max_lat min_lon max_lon <= fuel)%nat ->
  rect_scan fuel tile_path min_lat max_lat min_lon max_lon = Some st ->
  tag ∈ done st -> tag ∈ claimed_cells min_lat max_lat min_lon max_lon.
Proof.
  intros Hfuel Hrun Htag.
  destruct (rect_scan_cells fuel min_lat max_lat min_lon max_lon Hfuel) as (st' & Hrun' & _ & Hcells).
  assert (st' = st) by congruence. subst st'.
  apply Hcells in Htag. apply elem_of_claimed_cells.
  pose proof (Qfloor_gap_bounds min_lat max_lat).
  pose proof (Qfloor_gap_bounds min_lon max_lon). lia.
Qed.

Lemma rect_scan_covers_claimed fuel min_lat max_lat min_lon max_lon st tag :
  (rect_fuel min_lat max_lat min_lon max_lon <= fuel)%nat ->
  rect_scan fuel tile_path min_lat max_lat min_lon max_lon = Some st ->
  Qfloor min_lat + Qfloor (max_lat - min_lat) = Qfloor max_lat ->
  Qfloor min_lon + Qfloor (max_lon - min_lon) = Qfloor max_lon ->
  tag ∈ claimed_cells min_lat max_lat min_lon max_lon -> tag ∈ done st.
Proof.
  intros Hfuel Hrun Hlat Hlon Htag.
  destruct (rect_scan_cells fuel min_lat max_lat min_lon max_lon Hfuel) as (st' & Hrun' & _ & Hcells).
  assert (st' = st) by congruence. subst st'.
  apply Hcells. apply elem_of_claimed_cells in Htag. lia.
Qed.

End RectCells.

(** * The claims about area resolution *)

(** C9. A degenerate request, a circle with [radius <= 0] or a rectangle
    with [max_lat < min_lat] or [max_lon < min_lon], is resolved without
    any failure to the empty scan state: no file, no cell, no flag.  The
    rectangle's loops end on their own within the fuel of the area. *)
Theorem degenerate_area_resolves_empty (cfg : config)
  (add_offset : Q -> Q -> Q -> Q -> string -> Q * Q) (fuel : nat) (a : AreaRequest) :
  degenerate a ->
  (area_fuel a <= fuel)%nat ->
  resolve_area cfg add_offset fuel a = Some scan_init /\
  dict_fromkeys (filelist scan_init) = [].
Proof.
  intros Hdeg Hfuel. split; [|reflexivity].
  destruct a as [r|r]; simpl in *.
  - f_equal. apply circle_scan_degenerate, Hdeg.
  - apply rect_scan_degenerate; assumption.
Qed.

Lemma degenerate_area_resolves_empty_witness :
  resolve_area Demo.cfg Demo.add_offset 5
    (Rectangle (GenerateRectangleRequest.Make (1 # 2) (5 # 2) 7 3 3)) = Some scan_init /\
  dict_fromkeys (filelist scan_init) = [].
Proof.
  apply (degenerate_area_resolves_empty Demo.cfg Demo.add_offset 5
           (Rectangle (GenerateRectangleRequest.Make (1 # 2) (5 # 2) 7 3 3))).
  - right. reflexivity.
  - vm_compute. lia.
Defined.

Example degenerate_circle_resolves_empty :
  resolve_area Demo.cfg Demo.add_offset 0
    (Circle (GenerateRequest.Make (1 # 2) (1 # 2) 0 3)) = Some scan_init.
Proof. reflexivity. Qed.

(** C10. The response of either handler carries [outside_lat = True] or
    nothing, never [False]: when every scanned cell lies within 84
    degrees it is [None], the same value a failed build reports. *)
Theorem outside_lat_never_false (cfg : config)
  (origin : string -> option (list byte)) (gunzip : list byte -> option (list byte))
  (add_offset : Q -> Q -> Q -> Q -> string -> Q * Q) (now : Q)
  (fuel : nat) (uuidkey : string) (listing : list string) (a : AreaRequest)
  (w w' : world) (resp : GenerateResponse) :
  generate cfg origin gunzip add_offset now fuel uuidkey listing a w = Some (Ret resp, w') ->
  outside_lat resp <> Some false /\
  exists st, resolve_area cfg add_offset fuel a = Some st /\
             ((forall tag, tag ∈ done st -> Z.abs tag.1 <= 84) -> outside_lat resp = None) /\
             (success resp = false -> outside_lat resp = None) /\
             (success resp = true -> (exists tag, tag ∈ done st /\ 84 < Z.abs tag.1) ->
              outside_lat resp = Some true).
Proof.
  rewrite generate_unfold.
  destruct (resolve_area cfg add_offset fuel a) as [st|] eqn:Hst; [|discriminate].
  rewrite respond_unfold.
  destruct (compressFiles _ _ _ _ _ _ _ w) as [[b|e] w1]; [|discriminate].
  destruct (sweep cfg now listing w1) as [[[]|e] w2]; [|discriminate].
  intros [= <- <-].
  destruct (resolve_area_wf cfg add_offset fuel a st Hst) as (_ & Hflag & _).
  destruct (flag_of_cases (done st)) as [[Hall Hnone]|[Hsome Htrue]].
  - assert (Hresp : outside_lat (if b then response_ok uuidkey (outsideLat st)
                                 else response_failed uuidkey) = None).
    { destruct b; simpl; congruence. }
    split; [congruence|]. exists st. split; [reflexivity|]. split; [auto|]. split; [auto|].
    intros _ (tag & Htag & Hout). rewrite Forall_forall in Hall.
    specialize (Hall tag Htag). unfold inside in Hall. lia.
  - destruct b; simpl.
    + split; [congruence|]. exists st. split; [reflexivity|]. split; [|split].
      * intros Hin. exfalso. apply Hsome, Forall_forall. exact Hin.
      * discriminate.
      * intros _ _. congruence.
    + split; [discriminate|]. exists st. split; [reflexivity|]. split; [auto|].
      split; [auto|discriminate].
Qed.

Lemma outside_lat_never_false_witness :
  let a := Circle (GenerateRequest.Make (1 # 2) (1 # 2) 1 1) in
  outside_lat (response_ok "u" None) <> Some false /\
  exists st, resolve_area Demo.cfg Demo.add_offset 0 a = Some st /\
             ((forall tag, tag ∈ done st -> Z.abs tag.1 <= 84) ->
              outside_lat (response_ok "u" None) = None) /\
             (success (response_ok "u" None) = false ->
              outside_lat (response_ok "u" None) = None) /\
             (success (response_ok "u" None) = true ->
              (exists tag, tag ∈ done st /\ 84 < Z.abs tag.1) ->
              outside_lat (response_ok "u" None) = Some true).
Proof.
  intros a.
  apply (outside_lat_never_false Demo.cfg Demo.origin Demo.gunzip Demo.add_offset Demo.now
           0 "u" ["old.zip"] a Demo.w0
           (world_after (generate Demo.cfg Demo.origin Demo.gunzip Demo.add_offset Demo.now
                           0 "u" ["old.zip"] a Demo.w0) Demo.w0)
           (response_ok "u" None)).
  vm_compute. reflexivity.
Defined.




(** * The claims about archive assembly and the tile cache *)

(** C2, as the code has it.  When the tiles before [fn] go through and
    [fn] cannot be had (not on disk and not served, or not a gzip
    stream), [compressFiles] returns [False]; the destination archive is
    not removed: it stays on disk, closed, with one entry for each tile
    before [fn]. *)
Theorem compressFiles_failure_keeps_archive (cfg : config)
  (origin : string -> option (list byte)) (gunzip : list byte -> option (list byte))
  (now : Q) (pre : list string) (fn : string) (post : list string)
  (uuidkey : string) (version : Z) (url_path : option string) (w w1 : world) :
  url_path_of cfg version = Some url_path ->
  for_each pre (add_tile origin gunzip now url_path (zip_path cfg uuidkey))
    (zip_open now (zip_path cfg uuidkey) w).2 = (Ret tt, w1) ->
  tile_fails origin gunzip url_path fn w1 ->
  exists w2 es,
    compressFiles cfg origin gunzip now (pre ++ fn :: post) uuidkey version w = (Ret false, w2) /\
    is_archive (zip_path cfg uuidkey) es w2 /\
    length es = length pre.
Proof.
  intros Hurl Hpre Hfail.
  rewrite compressFiles_unfold, Hurl, for_each_app, Hpre.
  pose proof (tiles_archive origin gunzip now url_path (zip_path cfg uuidkey) pre _ []
                (zip_open_archive now (zip_path cfg uuidkey) w)) as Hloop.
  rewrite Hpre in Hloop. destruct Hloop as (es & Harch & Hlen).
  simpl. unfold bind.
  pose proof (add_tile_archive origin gunzip now url_path (zip_path cfg uuidkey) fn w1 es Harch)
    as Hstep.
  destruct (add_tile origin gunzip now url_path (zip_path cfg uuidkey) fn w1) as [[[]|e] w2].
  - destruct Hstep as [_ Hok]. contradiction.
  - destruct Hstep as [Harch2 _]. exists w2, es. auto.
Qed.

Lemma compressFiles_failure_keeps_archive_witness :
  exists w2 es,
    compressFiles Demo.cfg Demo.origin Demo.gunzip Demo.now
      (["/t1/N00E000.DAT.gz"] ++ "/t1/N00E001.DAT.gz" :: ["/t1/N01E000.DAT.gz"]) "u" 1 Demo.w0
    = (Ret false, w2) /\
    is_archive (zip_path Demo.cfg "u") es w2 /\
    length es = length ["/t1/N00E000.DAT.gz"].
Proof.
  apply (compressFiles_failure_keeps_archive Demo.cfg Demo.origin Demo.gunzip Demo.now
           ["/t1/N00E000.DAT.gz"] "/t1/N00E001.DAT.gz" ["/t1/N01E000.DAT.gz"] "u" 1 None Demo.w0
           (for_each ["/t1/N00E000.DAT.gz"]
              (add_tile Demo.origin Demo.gunzip Demo.now None (zip_path Demo.cfg "u"))
              (zip_open Demo.now (zip_path Demo.cfg "u") Demo.w0).2).2).
  - reflexivity.
  - vm_compute. reflexivity.
  - vm_compute. exact I.
Defined.

(** C2 fails as stated: the second of two tiles is missing, the build
    returns [False], and the archive with the first tile is still on
    disk. *)
Lemma compressFiles_leaves_partial_archive :
  let r := compressFiles Demo.cfg Demo.origin Demo.gunzip Demo.now
             ["/t1/N00E000.DAT.gz"; "/t1/N00E001.DAT.gz"] "u" 1 Demo.w0 in
  r.1 = Ret false /\
  disk r.2 !! "/out/u.zip" = Some (File Demo.now (ZipArchive [("N00E000.DAT", [x01])])).
Proof. vm_compute. split; reflexivity. Qed.

(** C8. Resolving tiles that are on disk asks nothing of the origin and
    writes nothing but the archive; a pass of the tile loop asks the
    origin exactly when the tile is absent and an origin is configured,
    and leaves a tile that is present as it is; a tile that has been
    resolved once is resolved again without a second request. *)
Theorem resolve_present_never_downloads (cfg : config)
  (origin : string -> option (list byte)) (gunzip : list byte -> option (list byte))
  (now : Q) (fileList : list string) (uuidkey : string) (version : Z) (w : world) :
  (forall fn, fn ∈ fileList -> is_Some (disk w !! fn)) ->
  let w' := (compressFiles cfg origin gunzip now fileList uuidkey version w).2 in
  requested w' = requested w /\
  (forall p, p <> zip_path cfg uuidkey -> disk w' !! p = disk w !! p) /\
  (forall url_path zipthis fn w0,
     requested (add_tile origin gunzip now url_path zipthis fn w0).2 <> requested w0 <->
     disk w0 !! fn = None /\ is_Some url_path) /\
  (forall url_path zipthis fn w0,
     is_Some (disk w0 !! fn) -> fn <> zipthis ->
     disk (add_tile origin gunzip now url_path zipthis fn w0).2 !! fn = disk w0 !! fn) /\
  (forall url_path zipthis fn w0 w1,
     add_tile origin gunzip now url_path zipthis fn w0 = (Ret tt, w1) ->
     requested (add_tile origin gunzip now url_path zipthis fn w1).2 = requested w1).
Proof.
  intros Hall w'.
  destruct (compressFiles_no_fetch cfg origin gunzip now fileList uuidkey version w Hall)
    as [Hreq Hdisk].
  split; [exact Hreq|]. split; [exact Hdisk|]. split; [|split].
  - intros url_path zipthis fn w0. apply add_tile_fetch_iff.
  - intros url_path zipthis fn w0 Hfn Hne.
    apply (add_tile_no_fetch origin gunzip now url_path zipthis fn w0 Hfn), Hne.
  - intros url_path zipthis fn w0 w1 Hrun.
    apply add_tile_no_fetch. apply (add_tile_ok_present _ _ _ _ _ _ _ _ Hrun).
Qed.

Lemma resolve_present_never_downloads_witness :
  let w' := (compressFiles Demo.cfg Demo.origin Demo.gunzip Demo.now
               ["/t1/N00E000.DAT.gz"] "u" 1 Demo.w0).2 in
  requested w' = requested Demo.w0 /\
  (forall p, p <> zip_path Demo.cfg "u" -> disk w' !! p = disk Demo.w0 !! p) /\
  (forall url_path zipthis fn w0,
     requested (add_tile Demo.origin Demo.gunzip Demo.now url_path zipthis fn w0).2
       <> requested w0 <->
     disk w0 !! fn = None /\ is_Some url_path) /\
  (forall url_path zipthis fn w0,
     is_Some (disk w0 !! fn) -> fn <> zipthis ->
     disk (add_tile Demo.origin Demo.gunzip Demo.now url_path zipthis fn w0).2 !! fn
       = disk w0 !! fn) /\
  (forall url_path zipthis fn w0 w1,
     add_tile Demo.origin Demo.gunzip Demo.now url_path zipthis fn w0 = (Ret tt, w1) ->
     requested (add_tile Demo.origin Demo.gunzip Demo.now url_path zipthis fn w1).2
       = requested w1).
Proof.
  apply (resolve_present_never_downloads Demo.cfg Demo.origin Demo.gunzip Demo.now
           ["/t1/N00E000.DAT.gz"] "u" 1 Demo.w0).
  intros fn Hfn. apply list_elem_of_singleton in Hfn as ->. vm_compute. eauto.
Defined.

(** A tile of version 3 is fetched on the first build and served from
    disk on the second. *)
Example second_build_asks_nothing :
  let w1 := (compressFiles Demo.cfg Demo.origin Demo.gunzip Demo.now
               ["/t3/N00E000.DAT.gz"] "u" 3 Demo.w0).2 in
  let w2 := (compressFiles Demo.cfg Demo.origin Demo.gunzip Demo.now
               ["/t3/N00E000.DAT.gz"] "v" 3 w1).2 in
  requested w1 = ["http://origin/tilesdat3/N00E000.DAT.gz"] /\
  requested w2 = requested w1 /\
  disk w2 !! "/out/v.zip" = Some (File Demo.now (ZipArchive [("N00E000.DAT", [x2a; x2b])])).
Proof. vm_compute. repeat split. Qed.

(** The two worlds a write in place passes through: the path created
    empty, then filled; no other path is touched. *)
Lemma store_tile_worlds (now : Q) (fn : string) (g : list byte) (w : world) :
  worlds_of (store_tile now fn g) w =
    [set_disk (<[fn := File now (Raw [])]> (disk w)) w;
     set_disk (<[fn := File now (Raw g)]> (disk w)) w] /\
  run_steps (store_tile now fn g) w =
    (Ret tt, set_disk (<[fn := File now (Raw g)]> (disk w)) w) /\
  forall w', w' ∈ worlds_of (store_tile now fn g) w ->
             forall p, p <> fn -> disk w' !! p = disk w !! p.
Proof.
  assert (Hworlds : worlds_of (store_tile now fn g) w =
            [set_disk (<[fn := File now (Raw [])]> (disk w)) w;
             set_disk (<[fn := File now (Raw g)]> (disk w)) w]).
  { unfold store_tile, worlds_of, open_w, write, set_disk. simpl.
    rewrite lookup_insert_eq, insert_insert_eq. reflexivity. }
  split; [exact Hworlds|]. split.
  - unfold run_steps, store_tile, for_each, bind, open_w, write, ret, set_disk. simpl.
    rewrite lookup_insert_eq, insert_insert_eq. reflexivity.
  - rewrite Hworlds. intros w' Hw' p Hp.
    apply elem_of_cons in Hw' as [->|Hw']; [simpl; apply lookup_insert_ne; congruence|].
    apply list_elem_of_singleton in Hw' as ->. simpl. apply lookup_insert_ne. congruence.
Qed.

(** C4, as the code has it.  On a cache miss with the origin serving
    [g], the bytes are written in place: the tile's path is opened for
    writing, which creates it empty, and then filled.  Of the two
    worlds the write passes through, the first has the tile present and
    empty, the second has it complete; no other path, so no temporary
    one, is touched and nothing is renamed.  When the pass of the loop
    is over the path holds exactly the bytes served. *)
Theorem download_writes_in_place (origin : string -> option (list byte))
  (gunzip : list byte -> option (list byte)) (now : Q)
  (url zipthis fn : string) (g : list byte) (w : world) :
  disk w !! fn = None ->
  origin (url +:+ PyStr.basename fn) = Some g ->
  let w1 := (urlopen origin (url +:+ PyStr.basename fn) w).2 in
  worlds_of (store_tile now fn g) w1 =
    [set_disk (<[fn := File now (Raw [])]> (disk w)) w1;
     set_disk (<[fn := File now (Raw g)]> (disk w)) w1] /\
  (forall w', w' ∈ worlds_of (store_tile now fn g) w1 ->
              forall p, p <> fn -> disk w' !! p = disk w !! p) /\
  disk (add_tile origin gunzip now (Some url) zipthis fn w).2 !! fn =
    Some (File now (Raw g)).
Proof.
  intros Hfn Hg w1.
  assert (Hw1 : disk w1 = disk w).
  { subst w1. unfold urlopen. rewrite Hg. reflexivity. }
  destruct (store_tile_worlds now fn g w1) as (Hworlds & _ & Hframe).
  rewrite Hw1 in Hworlds. split; [exact Hworlds|]. split.
  - intros w' Hw' p Hp. rewrite <- Hw1. apply Hframe; assumption.
  - rewrite (add_tile_absent_origin origin gunzip now url zipthis fn w Hfn). cbv zeta.
    rewrite Hg. destruct (gunzip g) as [c|]; [|simpl; apply lookup_insert_eq].
    unfold zip_writestr. simpl.
    destruct (decide (fn = zipthis)) as [->|Hne].
    + rewrite lookup_insert_eq. simpl. apply lookup_insert_eq.
    + rewrite lookup_insert_ne by exact Hne.
      destruct (disk w !! zipthis) as [[t [b|es]]|]; simpl;
        try apply lookup_insert_eq.
      rewrite lookup_insert_ne by congruence. apply lookup_insert_eq.
Qed.

Lemma download_writes_in_place_witness :
  let fn := "/t3/N00E000.DAT.gz"%string in
  let url := "http://origin/tilesdat3/"%string in
  let w := (zip_open Demo.now "/out/v.zip" Demo.w0).2 in
  let w1 := (urlopen Demo.origin (url +:+ PyStr.basename fn) w).2 in
  worlds_of (store_tile Demo.now fn [x1f; x2a; x2b]) w1 =
    [set_disk (<[fn := File Demo.now (Raw [])]> (disk w)) w1;
     set_disk (<[fn := File Demo.now (Raw [x1f; x2a; x2b])]> (disk w)) w1] /\
  (forall w', w' ∈ worlds_of (store_tile Demo.now fn [x1f; x2a; x2b]) w1 ->
              forall p, p <> fn -> disk w' !! p = disk w !! p) /\
  disk (add_tile Demo.origin Demo.gunzip Demo.now (Some url) "/out/v.zip" fn w).2 !! fn =
    Some (File Demo.now (Raw [x1f; x2a; x2b])).
Proof.
  intros fn url w w1.
  apply (download_writes_in_place Demo.origin Demo.gunzip Demo.now url "/out/v.zip" fn
           [x1f; x2a; x2b] w).
  - vm_compute. reflexivity.
  - vm_compute. reflexivity.
Defined.

(** C4 fails as stated: during the download of [N00E000] the tile is on
    disk, empty, before its bytes are written; a resolver that runs on
    that world finds it present, asks nothing of the origin, reads the
    empty file as a tile without bytes, and puts that into its
    archive. *)
Lemma download_exposes_partial_tile :
  let fn := "/t3/N00E000.DAT.gz"%string in
  let zip := zip_path Demo.cfg "v" in
  exists w_mid w2,
    Demo.origin "http://origin/tilesdat3/N00E000.DAT.gz" = Some [x1f; x2a; x2b] /\
    w_mid ∈ worlds_of (store_tile Demo.now fn [x1f; x2a; x2b])
              (urlopen Demo.origin "http://origin/tilesdat3/N00E000.DAT.gz"
                 (zip_open Demo.now zip Demo.w0).2).2 /\
    path_exists fn w_mid = (Ret true, w_mid) /\
    disk w_mid !! fn = Some (File Demo.now (Raw [])) /\
    add_tile Demo.origin Demo.gunzip Demo.now (url_path3 Demo.cfg) zip fn w_mid =
      (Ret tt, w2) /\
    requested w2 = requested w_mid /\
    disk w2 !! zip = Some (File Demo.now (ZipArchive [("N00E000.DAT", [])])).
Proof.
  intros fn zip. eexists. eexists. split; [reflexivity|].
  split; [apply list_elem_of_here|].
  vm_compute. repeat split.
Qed.

(** * The claims about the sweep *)

(** C3, as the code has it.  The clean-up loop has no handler of its
    own: when the entries [pre] of the listing are swept and the next
    entry [f] is gone from disk, the sweep stops there, the entries
    [post] after it are not looked at (the world is left as it was
    after [pre]), and the handler raises HTTP 500 for the missing file
    although the build had returned. *)
Theorem sweep_failure_aborts_generate (cfg : config)
  (origin : string -> option (list byte)) (gunzip : list byte -> option (list byte))
  (add_offset : Q -> Q -> Q -> Q -> string -> Q * Q) (now : Q)
  (fuel : nat) (uuidkey : string) (pre : list string) (f : string) (post : list string)
  (a : AreaRequest) (st : scan_state) (b : bool) (w w1 w2 : world) :
  resolve_area cfg add_offset fuel a = Some st ->
  compressFiles cfg origin gunzip now (dict_fromkeys (filelist st)) uuidkey (area_version a) w
    = (Ret b, w1) ->
  sweep cfg now pre w1 = (Ret tt, w2) ->
  disk w2 !! PyStr.path_join (output_path cfg) f = None ->
  sweep cfg now (pre ++ f :: post) w1 =
    (Raise (FileNotFoundError (PyStr.path_join (output_path cfg) f)), w2) /\
  generate cfg origin gunzip add_offset now fuel uuidkey (pre ++ f :: post) a w =
    Some (Raise (HTTPException 500 (FileNotFoundError (PyStr.path_join (output_path cfg) f))),
          w2).
Proof.
  intros Hst Hbuild Hpre Hgone.
  pose proof (sweep_aborts cfg now pre f post w1 w2 Hpre Hgone) as Habort.
  split; [exact Habort|].
  rewrite generate_unfold, Hst, respond_unfold, Hbuild, Habort. reflexivity.
Qed.

Lemma sweep_failure_aborts_generate_witness :
  let a := Circle (GenerateRequest.Make (1 # 2) (1 # 2) 1 1) in
  let w1 := (compressFiles Demo.cfg Demo.origin Demo.gunzip Demo.now
               ["/t1/N00E000.DAT.gz"] "u" 1 Demo.w0).2 in
  sweep Demo.cfg Demo.now ([] ++ "gone.zip" :: ["old.zip"]) w1 =
    (Raise (FileNotFoundError (PyStr.path_join (output_path Demo.cfg) "gone.zip")), w1) /\
  generate Demo.cfg Demo.origin Demo.gunzip Demo.add_offset Demo.now 0 "u"
    ([] ++ "gone.zip" :: ["old.zip"]) a Demo.w0 =
    Some (Raise (HTTPException 500
                   (FileNotFoundError (PyStr.path_join (output_path Demo.cfg) "gone.zip"))),
          w1).
Proof.
  intros a w1.
  apply (sweep_failure_aborts_generate Demo.cfg Demo.origin Demo.gunzip Demo.add_offset
           Demo.now 0 "u" [] "gone.zip" ["old.zip"] a
           (circle_scan Demo.add_offset "/t1" (1 # 2) (1 # 2) 1) true Demo.w0 w1 w1).
  - reflexivity.
  - vm_compute. reflexivity.
  - reflexivity.
  - vm_compute. reflexivity.
Defined.

(** C3 fails as stated: the listing names a file that is gone and then
    an archive older than 24 hours.  The call raises HTTP 500, and the
    old archive, which a sweep that went on would have removed, is
    still on disk, next to the archive just built. *)
Lemma vanished_entry_aborts_sweep :
  let a := Circle (GenerateRequest.Make (1 # 2) (1 # 2) 1 1) in
  let r := generate Demo.cfg Demo.origin Demo.gunzip Demo.add_offset Demo.now 0 "u"
             ["gone.zip"; "old.zip"] a Demo.w0 in
  (exists w', r = Some (Raise (HTTPException 500 (FileNotFoundError "/out/gone.zip")), w')) /\
  expired Demo.now (File (inject_Z 1000) (ZipArchive [])) = true /\
  disk (world_after r Demo.w0) !! "/out/old.zip" = Some (File (inject_Z 1000) (ZipArchive [])) /\
  disk (world_after r Demo.w0) !! "/out/u.zip" =
    Some (File Demo.now (ZipArchive [("N00E000.DAT", [x01])])).
Proof.
  intros a r. split; [eexists; vm_compute; reflexivity|].
  vm_compute. repeat split.
Qed.

(** With a listing that only names what is there, the same call returns
    its response and the old archive is gone. *)
Example sweep_removes_expired :
  let a := Circle (GenerateRequest.Make (1 # 2) (1 # 2) 1 1) in
  let r := generate Demo.cfg Demo.origin Demo.gunzip Demo.add_offset Demo.now 0 "u"
             ["old.zip"; "u.zip"] a Demo.w0 in
  (exists w', r = Some (Ret (response_ok "u" None), w')) /\
  disk (world_after r Demo.w0) !! "/out/old.zip" = None /\
  disk (world_after r Demo.w0) !! "/out/u.zip" =
    Some (File Demo.now (ZipArchive [("N00E000.DAT", [x01])])).
Proof.
  intros a r. split; [eexists; vm_compute; reflexivity|].
  vm_compute. repeat split.
Qed.

(** * The claim about the rectangle scan *)

(** The cells the claim C1 names: every integer degree cell of
    [floor(min_lat) .. floor(max_lat)] by [floor(min_lon) .. floor(max_lon)]. *)
Lemma claimed_cells_of_example :
  claimed_cells (1 # 2) (5 # 4) (1 # 2) (5 # 4) = [(0, 0); (0, 1); (1, 0); (1, 1)].
Proof. reflexivity. Qed.

(** The three float operations the loops perform on that request, in
    binary64 itself: the test passes at 0.5, the step gives 1.5 exactly,
    the test fails at 1.5.  The rationals of the model compute the
    same. *)
Example binary64_steps_of_example :
  PrimFloat.leb 0.5%float 1.25%float = true /\
  PrimFloat.add 0.5%float 1.0%float = 1.5%float /\
  PrimFloat.leb 1.5%float 1.25%float = false /\
  Qle_bool (1 # 2) (5 # 4) = true /\
  ((1 # 2) + 1 == 3 # 2)%Q /\
  Qle_bool ((1 # 2) + 1) (5 # 4) = false.
Proof. repeat split. Qed.

(** C1 at the request [min_lat = min_lon = 0.5], [max_lat = max_lon =
    1.25]: the loops end within the fuel of the area, and the scan has
    visited the cell (0, 0) alone.  The cells (0, 1), (1, 0) and (1, 1),
    which the rectangle reaches into, have no file in the list: the
    loop variable steps from 0.5 to 1.5 and is past the bound before
    the cell of the bound is visited. *)
Theorem rect_scan_misses_upper_cells :
  let a := Rectangle (GenerateRectangleRequest.Make (1 # 2) (5 # 4) (1 # 2) (5 # 4) 3) in
  GenerateRectangleRequest.valid (GenerateRectangleRequest.Make (1 # 2) (5 # 4) (1 # 2) (5 # 4) 3) /\
  area_fuel a = 2%nat /\
  resolve_area Demo.cfg Demo.add_offset 2 a =
    Some {| filelist := ["/t3/N00E000.DAT.gz"]; done := [(0, 0)]; outsideLat := None |} /\
  claimed_cells (1 # 2) (5 # 4) (1 # 2) (5 # 4) = [(0, 0); (0, 1); (1, 0); (1, 1)] /\
  cell_path "/t3" (1, 1) ∉ ["/t3/N00E000.DAT.gz"].
Proof.
  intros a. split; [|split; [|split; [|split]]].
  - unfold GenerateRectangleRequest.valid. simpl.
    repeat split; try (right; reflexivity); try (vm_compute; discriminate);
      reflexivity.
  - reflexivity.
  - reflexivity.
  - reflexivity.
  - intros Hin. apply list_elem_of_singleton in Hin. vm_compute in Hin. discriminate.
Qed.

(** * Further properties of the module *)

(** ** Tile names beyond the claims *)

(** X1. [getDatFile] never fails and never grows: at every pair of
    integers the name is the 14 characters of the cell clamped to
    latitude -99..99 and longitude -999..999, so cells beyond the clamp
    share the name of the cell on its edge. *)
Theorem getDatFile_clamps_out_of_range (lat lon : Z) :
  getDatFile lat lon = getDatFile (clamp lat (-99) 99) (clamp lon (-999) 999) /\
  String.length (getDatFile lat lon) = 14%nat.
Proof.
  rewrite !getDatFile_name. split; [|apply name_length].
  unfold TileNamer.name, TileNamer.hemisphere_NS, TileNamer.hemisphere_EW, clamp.
  replace (Z.min (Z.abs (Z.max (-99) (Z.min lat 99))) 99) with (Z.min (Z.abs lat) 99) by lia.
  replace (Z.min (Z.abs (Z.max (-999) (Z.min lon 999))) 999) with (Z.min (Z.abs lon) 999) by lia.
  replace (0 <=? Z.max (-99) (Z.min lat 99)) with (0 <=? lat) by lia.
  replace (0 <=? Z.max (-999) (Z.min lon 999)) with (0 <=? lon) by lia.
  reflexivity.
Qed.

Lemma digit_inj (d1 d2 : Z) :
  0 <= d1 <= 9 -> 0 <= d2 <= 9 -> TileNamer.digit d1 = TileNamer.digit d2 -> d1 = d2.
Proof.
  intros H1 H2 Heq. unfold TileNamer.digit in Heq.
  apply (f_equal N_of_ascii) in Heq.
  rewrite !N_ascii_embedding in Heq by lia. lia.
Qed.

Lemma two_digits_inj (a b : Z) :
  0 <= a <= 99 -> 0 <= b <= 99 -> TileNamer.two_digits a = TileNamer.two_digits b -> a = b.
Proof.
  intros Ha Hb Heq. unfold TileNamer.two_digits in Heq. injection Heq as H1 H0.
  apply digit_inj in H1; [|Z.div_mod_to_equations; lia..].
  apply digit_inj in H0; [|Z.div_mod_to_equations; lia..].
  Z.div_mod_to_equations. lia.
Qed.

Lemma three_digits_inj (a b : Z) :
  0 <= a <= 999 -> 0 <= b <= 999 ->
  TileNamer.three_digits a = TileNamer.three_digits b -> a = b.
Proof.
  intros Ha Hb Heq. unfold TileNamer.three_digits, TileNamer.two_digits in Heq.
  injection Heq as H2 H1 H0.
  apply digit_inj in H2; [|Z.div_mod_to_equations; lia..].
  apply digit_inj in H1; [|Z.div_mod_to_equations; lia..].
  apply digit_inj in H0; [|Z.div_mod_to_equations; lia..].
  Z.div_mod_to_equations. lia.
Qed.

Lemma getDatFile_inj_in_range (lat1 lon1 lat2 lon2 : Z) :
  Z.abs lat1 <= 99 -> Z.abs lon1 <= 999 ->
  Z.abs lat2 <= 99 -> Z.abs lon2 <= 999 ->
  getDatFile lat1 lon1 = getDatFile lat2 lon2 ->
  lat1 = lat2 /\ lon1 = lon2.
Proof.
  intros Ha1 Ho1 Ha2 Ho2. rewrite !getDatFile_name.
  unfold TileNamer.name, TileNamer.hemisphere_NS, TileNamer.hemisphere_EW.
  rewrite !Z.min_l by lia.
  unfold TileNamer.two_digits, TileNamer.three_digits. cbn [String.append].
  intros Heq. injection Heq as Hns A1 A0 Hew B2 B1 B0.
  assert (Hlat : TileNamer.two_digits (Z.abs lat1) = TileNamer.two_digits (Z.abs lat2)).
  { unfold TileNamer.two_digits. congruence. }
  apply two_digits_inj in Hlat; [|lia..].
  assert (Hlon : TileNamer.three_digits (Z.abs lon1) = TileNamer.three_digits (Z.abs lon2)).
  { unfold TileNamer.three_digits, TileNamer.two_digits. congruence. }
  apply three_digits_inj in Hlon; [|lia..].
  split.
  - destruct (0 <=? lat1) eqn:E1, (0 <=? lat2) eqn:E2; try discriminate; lia.
  - destruct (0 <=? lon1) eqn:E1, (0 <=? lon2) eqn:E2; try discriminate; lia.
Qed.

(** X2. Within the range of the name format, latitude -99..99 and
    longitude -999..999, two cells with the same file name are the same
    cell. *)
Theorem getDatFile_injective (lat1 lon1 lat2 lon2 : Z) :
  Z.abs lat1 <= 99 -> Z.abs lon1 <= 999 ->
  Z.abs lat2 <= 99 -> Z.abs lon2 <= 999 ->
  getDatFile lat1 lon1 = getDatFile lat2 lon2 ->
  lat1 = lat2 /\ lon1 = lon2.
Proof. apply getDatFile_inj_in_range. Qed.

Lemma getDatFile_injective_witness : -12 = -12 /\ 34 = 34.
Proof.
  apply (getDatFile_injective (-12) 34 (-12) 34); [simpl; lia..|reflexivity].
Defined.

(** Beyond the range two cells do share a name. *)
Example getDatFile_collides_beyond_range :
  getDatFile 0 1000 = getDatFile 0 1001 /\ getDatFile 99 0 = getDatFile 120 0.
Proof. split; reflexivity. Qed.

(** ** From a cell to its archive entry *)

Lemma append_cons (c : ascii) (s t : string) : String c s +:+ t = String c (s +:+ t).
Proof. reflexivity. Qed.

Lemma append_nil_l (t : string) : EmptyString +:+ t = t.
Proof. reflexivity. Qed.

Lemma append_snoc (acc : string) (c : ascii) (s : string) :
  (acc +:+ String c EmptyString) +:+ s = acc +:+ String c s.
Proof.
  induction acc as [|a acc IH]; [reflexivity|].
  rewrite !append_cons, IH. reflexivity.
Qed.

Lemma append_nil_r (acc : string) : acc +:+ EmptyString = acc.
Proof.
  induction acc as [|a acc IH]; [reflexivity|]. rewrite append_cons, IH. reflexivity.
Qed.

Lemma basename_aux_app (s1 s2 acc : string) :
  PyStr.basename_aux (s1 +:+ s2) acc = PyStr.basename_aux s2 (PyStr.basename_aux s1 acc).
Proof.
  revert acc. induction s1 as [|c s1 IH]; intros acc; [reflexivity|].
  rewrite append_cons. cbn [PyStr.basename_aux].
  destruct (Ascii.eqb c "/"); apply IH.
Qed.

Lemma digit_not_slash (d : Z) : 0 <= d <= 9 -> Ascii.eqb (TileNamer.digit d) "/" = false.
Proof.
  intros Hd.
  assert (H : d = 0 \/ d = 1 \/ d = 2 \/ d = 3 \/ d = 4 \/ d = 5 \/ d = 6 \/ d = 7
              \/ d = 8 \/ d = 9) by lia.
  repeat destruct H as [->|H]; try subst d; reflexivity.
Qed.

Lemma basename_aux_no_slash (s : string) : forall acc,
  no_slash s = true -> PyStr.basename_aux s acc = acc +:+ s.
Proof.
  induction s as [|c s IH]; intros acc; cbn [PyStr.basename_aux no_slash].
  - intros _. symmetry. apply append_nil_r.
  - destruct (Ascii.eqb c "/"); cbn [negb andb]; [discriminate|].
    intros Hs. rewrite (IH _ Hs). apply append_snoc.
Qed.

(** [basename] undoes [join] on a last component without separator. *)
Lemma basename_path_join (a b : string) :
  no_slash b = true -> PyStr.basename (PyStr.path_join a b) = b.
Proof.
  intros Hb. unfold PyStr.basename, PyStr.path_join. rewrite basename_aux_app.
  change ("/" +:+ b) with (String "/" b). cbn [PyStr.basename_aux].
  change (Ascii.eqb "/" "/") with true. cbv iota.
  apply (basename_aux_no_slash b EmptyString Hb).
Qed.

Lemma name_no_slash (lat lon : Z) : no_slash (TileNamer.name lat lon) = true.
Proof.
  unfold TileNamer.name, TileNamer.three_digits, TileNamer.two_digits,
    TileNamer.hemisphere_NS, TileNamer.hemisphere_EW.
  repeat (rewrite ?append_cons, ?append_nil_l). cbn [no_slash].
  rewrite !digit_not_slash by (Z.div_mod_to_equations; lia).
  destruct (0 <=? lat), (0 <=? lon); reflexivity.
Qed.

(** The last component of a tile's path is its name: the name holds no
    separator. *)
Lemma basename_cell_path (tile_path : string) (lat lon : Z) :
  PyStr.basename (PyStr.path_join tile_path (getDatFile lat lon)) = getDatFile lat lon.
Proof. apply basename_path_join. rewrite getDatFile_name. apply name_no_slash. Qed.

(** X3. The archive entry of a cell: whatever the tile root, the last
    path component of the cell's file without its last three characters
    is the 11 characters [<NS><LL><EW><LLL>.DAT], the tile's name
    without the [.gz] suffix. *)
Theorem entry_name_of_cell (tile_path : string) (lat lon : Z) :
  PyStr.drop_last 3 (PyStr.basename (PyStr.path_join tile_path (getDatFile lat lon))) =
    String (TileNamer.hemisphere_NS lat) (TileNamer.two_digits (Z.min (Z.abs lat) 99))
    +:+ String (TileNamer.hemisphere_EW lon) (TileNamer.three_digits (Z.min (Z.abs lon) 999))
    +:+ ".DAT" /\
  getDatFile lat lon =
    PyStr.drop_last 3 (PyStr.basename (PyStr.path_join tile_path (getDatFile lat lon)))
    +:+ ".gz".
Proof.
  rewrite basename_cell_path, getDatFile_name. split; reflexivity.
Qed.

Example entry_name_S12E034 :
  PyStr.drop_last 3 (PyStr.basename (cell_path "/mnt/terrain_data/data/tilesdat3" (-12, 34)))
  = "S12E034.DAT".
Proof. reflexivity. Qed.

(** ** clamp *)

(** X4. [clamp] with bounds in order returns a value within them, the
    argument itself when it already lies within, and the nearer bound
    otherwise; clamping twice changes nothing more. *)
Theorem clamp_within (n smallest largest : Z) :
  smallest <= largest ->
  smallest <= clamp n smallest largest <= largest /\
  (smallest <= n <= largest -> clamp n smallest largest = n) /\
  (n < smallest -> clamp n smallest largest = smallest) /\
  (largest < n -> clamp n smallest largest = largest) /\
  clamp (clamp n smallest largest) smallest largest = clamp n smallest largest.
Proof. unfold clamp. lia. Qed.

Lemma clamp_within_witness :
  1 <= clamp 0 1 400 <= 400 /\
  (1 <= 0 <= 400 -> clamp 0 1 400 = 0) /\
  (0 < 1 -> clamp 0 1 400 = 1) /\
  (400 < 0 -> clamp 0 1 400 = 400) /\
  clamp (clamp 0 1 400) 1 400 = clamp 0 1 400.
Proof. apply (clamp_within 0 1 400). lia. Defined.

(** With the bounds out of order the lower one wins, whatever the
    argument. *)
Lemma clamp_bounds_out_of_order (n smallest largest : Z) :
  largest < smallest -> clamp n smallest largest = smallest.
Proof. unfold clamp. lia. Qed.

(** ** The pydantic models *)

Lemma in_range_spec (lo : Z) (x : Q) (hi : Z) :
  in_range lo x hi = true <-> (inject_Z lo <= x)%Q /\ (x <= inject_Z hi)%Q.
Proof. unfold in_range. rewrite Bool.andb_true_iff, !Qle_bool_iff. reflexivity. Qed.

Lemma version_ok_spec (v : Z) : version_ok v = true <-> v = 1 \/ v = 3.
Proof.
  unfold version_ok. rewrite bool_decide_eq_true, !elem_of_cons, elem_of_nil. tauto.
Qed.

Lemma Qfloor_ge (x : Q) (z : Z) : (inject_Z z <= x)%Q -> z <= Qfloor x.
Proof. intros H. rewrite <- (Qfloor_Z z). apply Qfloor_resp_le, H. Qed.

Lemma Qfloor_le_Z (x : Q) (z : Z) : (x <= inject_Z z)%Q -> Qfloor x <= z.
Proof. intros H. rewrite <- (Qfloor_Z z). apply Qfloor_resp_le, H. Qed.

(** X5. The two request models accept exactly what their field bounds
    and validators describe, and an accepted request is never
    degenerate: a circle has a radius of 1 to 400, a rectangle has
    [min < max] on both axes, so each scans at least one cell. *)
Theorem accepted_requests_are_proper :
  (forall lat lon radius version r,
     new_GenerateRequest lat lon radius version = Some r <->
     r = GenerateRequest.Make lat lon radius version /\ GenerateRequest.valid r) /\
  (forall min_lat max_lat min_lon max_lon version r,
     new_GenerateRectangleRequest min_lat max_lat min_lon max_lon version = Some r <->
     r = GenerateRectangleRequest.Make min_lat max_lat min_lon max_lon version /\
     GenerateRectangleRequest.valid r) /\
  (forall r, GenerateRequest.valid r -> proper (Circle r) /\ ~ degenerate (Circle r)) /\
  (forall r, GenerateRectangleRequest.valid r ->
             proper (Rectangle r) /\ ~ degenerate (Rectangle r)).
Proof.
  split; [|split; [|split]].
  - intros lat lon radius version r. unfold new_GenerateRequest, GenerateRequest.valid.
    match goal with |- context [if ?c then _ else _] => destruct c eqn:Hc end.
    + rewrite !Bool.andb_true_iff, !in_range_spec, !Z.leb_le, version_ok_spec in Hc.
      split.
      * intros [= <-]. simpl. split; [reflexivity|]. tauto.
      * intros [-> _]. reflexivity.
    + split; [discriminate|]. intros [-> Hv]. simpl in Hv.
      rewrite <- Bool.not_true_iff_false in Hc. exfalso. apply Hc.
      rewrite !Bool.andb_true_iff, !in_range_spec, !Z.leb_le, version_ok_spec. tauto.
  - intros min_lat max_lat min_lon max_lon version r.
    unfold new_GenerateRectangleRequest, GenerateRectangleRequest.valid.
    match goal with |- context [if ?c then _ else _] => destruct c eqn:Hc end.
    + rewrite !Bool.andb_true_iff, !in_range_spec, version_ok_spec,
        !Bool.negb_true_iff, !Qle_bool_false in Hc.
      split.
      * intros [= <-]. simpl. split; [reflexivity|]. tauto.
      * intros [-> _]. reflexivity.
    + split; [discriminate|]. intros [-> Hv]. simpl in Hv.
      rewrite <- Bool.not_true_iff_false in Hc. exfalso. apply Hc.
      rewrite !Bool.andb_true_iff, !in_range_spec, version_ok_spec,
        !Bool.negb_true_iff, !Qle_bool_false. tauto.
  - intros r (_ & _ & _ & _ & Hr & _). simpl. lia.
  - intros r (_ & _ & _ & _ & _ & _ & _ & _ & _ & Hlat & Hlon). simpl. split.
    + split; apply Qlt_le_weak; assumption.
    + intros [H|H]; [apply (Qlt_irrefl (GenerateRectangleRequest.min_lat r))
                    |apply (Qlt_irrefl (GenerateRectangleRequest.min_lon r))];
        eapply Qlt_trans; eassumption.
Qed.

(** ** The rectangle scan beyond the claims *)

Lemma fixed44_step (x : Q) (k : Z) :
  fixed44 x -> 0 <= k -> (x + inject_Z k <= inject_Z 181)%Q -> fixed44 (x + inject_Z k).
Proof.
  intros (m & Hm & Hx) Hk Hle. exists (m + k * 2 ^ 44). split.
  - rewrite Hx in Hle. unfold Qle, Qplus, inject_Z in Hle. cbn in Hle.
    change (2 ^ 53) with 9007199254740992 in *.
    change (2 ^ 44) with 17592186044416. lia.
  - rewrite Hx. unfold Qeq, Qplus, inject_Z. cbn.
    change (2 ^ 44) with 17592186044416. lia.
Qed.

(** The step of binary64 itself: from the float just below 1.0 the sum
    with 1.0 is rounded to 2.0, so a scan from there lands in cell 2
    where the rational step lands in cell 1; that float has 53
    fractional bits. *)
Example binary64_step_can_round :
  PrimFloat.eqb (PrimFloat.add 0x1.fffffffffffffp-1%float 1%float) 2%float = true /\
  Qfloor (Qmake (2 ^ 53 - 1) (2 ^ 53) + 1) = 1.
Proof. split; reflexivity. Qed.

(** X6. On bounds whose steps are exact in binary64, lower bounds with
    at most 44 fractional bits and upper bounds up to 180 degrees,
    every value the loop variables take is again such a number, so the
    float loop of the code is the loop of the model.  Given the fuel of
    its bounds the rectangle scan ends; it visits each cell once, and
    the cells are exactly those of the grid that starts at the floors of
    the lower bounds and has [floor(max - min) + 1] rows and columns
    (none when a bound pair is inverted); every one of them lies in the
    grid from floor to floor. *)
Theorem rect_scan_visits_grid (tile_path : string) (fuel : nat)
  (min_lat max_lat min_lon max_lon : Q) :
  fixed44 min_lat -> fixed44 min_lon ->
  (max_lat <= inject_Z 180)%Q -> (max_lon <= inject_Z 180)%Q ->
  (rect_fuel min_lat max_lat min_lon max_lon <= fuel)%nat ->
  (forall k, 0 <= k -> (min_lat + inject_Z k <= max_lat + 1)%Q ->
             fixed44 (min_lat + inject_Z k)) /\
  (forall k, 0 <= k -> (min_lon + inject_Z k <= max_lon + 1)%Q ->
             fixed44 (min_lon + inject_Z k)) /\
  exists st,
    rect_scan fuel tile_path min_lat max_lat min_lon max_lon = Some st /\
    NoDup (done st) /\
    (forall tag,
       tag ∈ done st <->
       Qfloor min_lat <= tag.1 <= Qfloor min_lat + Qfloor (max_lat - min_lat) /\
       Qfloor min_lon <= tag.2 <= Qfloor min_lon + Qfloor (max_lon - min_lon)) /\
    (forall tag, tag ∈ done st -> tag ∈ claimed_cells min_lat max_lat min_lon max_lon).
Proof.
  intros Hlat Hlon Hmaxlat Hmaxlon Hfuel.
  assert (Hstep : forall lo hi, fixed44 lo -> (hi <= inject_Z 180)%Q ->
            forall k, 0 <= k -> (lo + inject_Z k <= hi + 1)%Q -> fixed44 (lo + inject_Z k)).
  { intros lo hi Hlo Hhi k Hk Hle. apply fixed44_step; [exact Hlo|exact Hk|].
    change (inject_Z 181) with (inject_Z (180 + 1)). rewrite inject_Z_plus.
    change (inject_Z 1) with 1%Q. lra. }
  split; [apply (Hstep min_lat max_lat Hlat Hmaxlat)|].
  split; [apply (Hstep min_lon max_lon Hlon Hmaxlon)|].
  destruct (rect_scan_cells tile_path fuel _ _ _ _ Hfuel) as (st & Hrun & Hwf & Hcells).
  exists st. split; [exact Hrun|]. split; [apply Hwf|]. split; [exact Hcells|].
  intros tag. apply (rect_scan_within_claimed tile_path fuel _ _ _ _ st tag Hfuel Hrun).
Qed.

Lemma rect_scan_visits_grid_witness :
  (forall k, 0 <= k -> ((1 # 2) + inject_Z k <= (5 # 2) + 1)%Q ->
             fixed44 ((1 # 2) + inject_Z k)) /\
  (forall k, 0 <= k -> ((1 # 2) + inject_Z k <= (5 # 4) + 1)%Q ->
             fixed44 ((1 # 2) + inject_Z k)) /\
  exists st,
    rect_scan 5 "/t3" (1 # 2) (5 # 2) (1 # 2) (5 # 4) = Some st /\
    NoDup (done st) /\
    (forall tag,
       tag ∈ done st <->
       Qfloor (1 # 2) <= tag.1 <= Qfloor (1 # 2) + Qfloor ((5 # 2) - (1 # 2)) /\
       Qfloor (1 # 2) <= tag.2 <= Qfloor (1 # 2) + Qfloor ((5 # 4) - (1 # 2))) /\
    (forall tag, tag ∈ done st -> tag ∈ claimed_cells (1 # 2) (5 # 2) (1 # 2) (5 # 4)).
Proof.
  apply (rect_scan_visits_grid "/t3" 5 (1 # 2) (5 # 2) (1 # 2) (5 # 4)).
  - exists (2 ^ 43). split; [vm_compute; reflexivity|reflexivity].
  - exists (2 ^ 43). split; [vm_compute; reflexivity|reflexivity].
  - vm_compute. discriminate.
  - vm_compute. discriminate.
  - vm_compute. lia.
Defined.

Lemma Qfloor_gap_whole (a : Z) (hi : Q) :
  Qfloor (inject_Z a) + Qfloor (hi - inject_Z a) = Qfloor hi.
Proof.
  rewrite Qfloor_Z.
  assert (H : Qfloor (hi - inject_Z a) = Qfloor hi + - a).
  { rewrite <- Qfloor_shift. apply Qfloor_comp. rewrite inject_Z_opp. reflexivity. }
  lia.
Qed.

(** X7. When both lower bounds are whole degrees the rectangle scan
    covers the grid from floor to floor exactly: a cell is visited if
    and only if its latitude lies in [min_lat .. floor(max_lat)] and its
    longitude in [min_lon .. floor(max_lon)]. *)
Theorem rect_scan_whole_degree_bounds (tile_path : string) (fuel : nat)
  (a b : Z) (max_lat max_lon : Q) :
  (rect_fuel (inject_Z a) max_lat (inject_Z b) max_lon <= fuel)%nat ->
  exists st,
    rect_scan fuel tile_path (inject_Z a) max_lat (inject_Z b) max_lon = Some st /\
    (forall tag, tag ∈ done st <-> a <= tag.1 <= Qfloor max_lat /\ b <= tag.2 <= Qfloor max_lon) /\
    (forall tag, tag ∈ done st <->
                 tag ∈ claimed_cells (inject_Z a) max_lat (inject_Z b) max_lon).
Proof.
  intros Hfuel.
  destruct (rect_scan_cells tile_path fuel _ _ _ _ Hfuel) as (st & Hrun & _ & Hcells).
  exists st. split; [exact Hrun|].
  assert (Hiff : forall tag, tag ∈ done st <->
                   a <= tag.1 <= Qfloor max_lat /\ b <= tag.2 <= Qfloor max_lon).
  { intros tag. rewrite Hcells, !Qfloor_gap_whole, !Qfloor_Z. reflexivity. }
  split; [exact Hiff|]. intros tag.
  rewrite Hiff, elem_of_claimed_cells, !Qfloor_Z. reflexivity.
Qed.

Lemma rect_scan_whole_degree_bounds_witness :
  exists st,
    rect_scan 5 "/t3" (inject_Z 0) (5 # 4) (inject_Z 0) (5 # 4) = Some st /\
    (forall tag, tag ∈ done st <->
                 0 <= tag.1 <= Qfloor (5 # 4) /\ 0 <= tag.2 <= Qfloor (5 # 4)) /\
    (forall tag, tag ∈ done st <->
                 tag ∈ claimed_cells (inject_Z 0) (5 # 4) (inject_Z 0) (5 # 4)).
Proof.
  apply (rect_scan_whole_degree_bounds "/t3" 5 0 0 (5 # 4) (5 # 4)).
  vm_compute. lia.
Defined.

Lemma loop_fuel_bound (lo hi : Q) (a b : Z) :
  (inject_Z a <= lo)%Q -> (hi <= inject_Z b)%Q -> a <= b ->
  (loop_fuel lo hi <= Z.to_nat (b - a + 2))%nat.
Proof.
  intros Hlo Hhi Hab. unfold loop_fuel.
  pose proof (Qfloor_gap_bounds lo hi) as [_ Hgap].
  pose proof (Qfloor_ge lo a Hlo). pose proof (Qfloor_le_Z hi b Hhi). lia.
Qed.

(** X8. A rectangle request that the model accepts is scanned within
    362 passes of fuel, and every cell visited has its latitude in
    -90..90 and its longitude in -180..180, inside the range of the
    name format. *)
Theorem valid_rectangle_scan_is_bounded (tile_path : string)
  (r : GenerateRectangleRequest.t) :
  GenerateRectangleRequest.valid r ->
  exists st,
    rect_scan 362 tile_path
      (GenerateRectangleRequest.min_lat r) (GenerateRectangleRequest.max_lat r)
      (GenerateRectangleRequest.min_lon r) (GenerateRectangleRequest.max_lon r) = Some st /\
    done st <> [] /\
    forall tag, tag ∈ done st -> -90 <= tag.1 <= 90 /\ -180 <= tag.2 <= 180.
Proof.
  intros (Ha1 & Ha2 & Ha3 & Ha4 & Ho1 & Ho2 & Ho3 & Ho4 & _ & Hlat & Hlon).
  assert (Hfuel : (rect_fuel (GenerateRectangleRequest.min_lat r)
                     (GenerateRectangleRequest.max_lat r)
                     (GenerateRectangleRequest.min_lon r)
                     (GenerateRectangleRequest.max_lon r) <= 362)%nat).
  { unfold rect_fuel.
    pose proof (loop_fuel_bound _ _ (-90) 90 Ha1 Ha4).
    pose proof (loop_fuel_bound _ _ (-180) 180 Ho1 Ho4). lia. }
  destruct (rect_scan_cells tile_path 362 _ _ _ _ Hfuel) as (st & Hrun & _ & Hcells).
  exists st. split; [exact Hrun|]. split.
  - destruct (rect_scan_some tile_path 362 _ _ _ _ Hfuel) as (st' & Hrun' & _ & Hfirst).
    assert (st' = st) by congruence. subst st'.
    intros Hnil. rewrite Hnil in Hfirst.
    apply (elem_of_nil (Qfloor (GenerateRectangleRequest.min_lat r),
                        Qfloor (GenerateRectangleRequest.min_lon r))).
    apply Hfirst; apply Qle_bool_iff, Qlt_le_weak; assumption.
  - intros tag Htag. apply Hcells in Htag.
    pose proof (Qfloor_gap_bounds (GenerateRectangleRequest.min_lat r)
                  (GenerateRectangleRequest.max_lat r)) as [_ G1].
    pose proof (Qfloor_gap_bounds (GenerateRectangleRequest.min_lon r)
                  (GenerateRectangleRequest.max_lon r)) as [_ G2].
    pose proof (Qfloor_ge _ _ Ha1). pose proof (Qfloor_le_Z _ _ Ha4).
    pose proof (Qfloor_ge _ _ Ho1). pose proof (Qfloor_le_Z _ _ Ho4). lia.
Qed.

Lemma valid_rectangle_scan_is_bounded_witness :
  exists st,
    rect_scan 362 "/t3" (1 # 2) (5 # 4) (1 # 2) (5 # 4) = Some st /\
    done st <> [] /\
    forall tag, tag ∈ done st -> -90 <= tag.1 <= 90 /\ -180 <= tag.2 <= 180.
Proof.
  apply (valid_rectangle_scan_is_bounded "/t3"
           (GenerateRectangleRequest.Make (1 # 2) (5 # 4) (1 # 2) (5 # 4) 3)).
  unfold GenerateRectangleRequest.valid. simpl.
  repeat split; try (right; reflexivity); try (vm_compute; discriminate); reflexivity.
Defined.

(** ** The final pass over the file list *)

Lemma fromkeys_from_id (l : list string) : forall seen,
  NoDup l -> (forall x, x ∈ l -> x ∉ seen) -> fromkeys_from seen l = l.
Proof.
  induction l as [|x l IH]; intros seen Hnd Hseen; [reflexivity|].
  apply NoDup_cons in Hnd as [Hx Hnd]. cbn [fromkeys_from].
  rewrite bool_decide_eq_false_2 by (apply Hseen, elem_of_cons; auto).
  f_equal. apply IH; [exact Hnd|].
  intros y Hy. rewrite elem_of_cons. intros [->|Hin]; [contradiction|].
  apply (Hseen y); [apply elem_of_cons; auto|exact Hin].
Qed.

Lemma cell_path_inj (tile_path : string) (t1 t2 : Z * Z) :
  Z.abs t1.1 <= 99 -> Z.abs t1.2 <= 999 -> Z.abs t2.1 <= 99 -> Z.abs t2.2 <= 999 ->
  cell_path tile_path t1 = cell_path tile_path t2 -> t1 = t2.
Proof.
  intros H1 H2 H3 H4 Heq. unfold cell_path in Heq. apply path_join_inj in Heq.
  destruct t1 as [a1 o1], t2 as [a2 o2]. cbn [fst snd] in *.
  destruct (getDatFile_inj_in_range a1 o1 a2 o2 H1 H2 H3 H4 Heq) as [-> ->].
  reflexivity.
Qed.

(** X9. Whenever the longitudes of the scanned cells are within the
    range of the name format (-999..999), the file list of a scan has no
    duplicate before the final [dict.fromkeys] pass, the pass returns it
    unchanged, and it holds one file for each scanned cell within 84
    degrees of latitude. *)
Theorem dedup_pass_is_redundant (cfg : config)
  (add_offset : Q -> Q -> Q -> Q -> string -> Q * Q) (fuel : nat) (a : AreaRequest)
  (st : scan_state) :
  resolve_area cfg add_offset fuel a = Some st ->
  (forall tag, tag ∈ done st -> Z.abs tag.2 <= 999) ->
  NoDup (filelist st) /\
  dict_fromkeys (filelist st) = filelist st /\
  length (filelist st) = length (filter inside (done st)).
Proof.
  intros Hst Hlon.
  destruct (resolve_area_wf cfg add_offset fuel a st Hst) as (Hnd & _ & Hfiles).
  assert (Hnd' : NoDup (filelist st)).
  { rewrite Hfiles. apply NoDup_fmap_2_strong.
    - intros t1 t2 Ht1 Ht2. apply list_elem_of_filter in Ht1 as [Hi1 Hm1].
      apply list_elem_of_filter in Ht2 as [Hi2 Hm2].
      rewrite elem_of_reverse in Hm1, Hm2. unfold inside in Hi1, Hi2.
      apply cell_path_inj; [lia|apply Hlon, Hm1|lia|apply Hlon, Hm2].
    - apply NoDup_filter. rewrite reverse_Permutation. exact Hnd. }
  split; [exact Hnd'|]. split.
  - apply fromkeys_from_id; [exact Hnd'|]. intros x _. apply not_elem_of_nil.
  - rewrite Hfiles, length_fmap, filter_reverse, length_reverse. reflexivity.
Qed.

Lemma dedup_pass_is_redundant_witness :
  let st := circle_scan Demo.add_offset "/t1" (1 # 2) (1 # 2) 1 in
  NoDup (filelist st) /\
  dict_fromkeys (filelist st) = filelist st /\
  length (filelist st) = length (filter inside (done st)).
Proof.
  intros st.
  apply (dedup_pass_is_redundant Demo.cfg Demo.add_offset 0
           (Circle (GenerateRequest.Make (1 # 2) (1 # 2) 1 1)) st).
  - reflexivity.
  - intros tag Htag. vm_compute in Htag.
    repeat (apply elem_of_cons in Htag as [->|Htag]; [simpl; lia|]).
    apply elem_of_nil in Htag. contradiction.
Defined.

(** Beyond that range the pass does work: two cells at longitudes 1000
    and 1001 are both named [E999], and only one entry is handed on. *)
Example dedup_pass_merges_clamped_names :
  let st := circle_scan far_offset "/t3" 0 0 1 in
  done st = [(0, 1001); (0, 1000)] /\
  filelist st = ["/t3/N00E999.DAT.gz"; "/t3/N00E999.DAT.gz"] /\
  dict_fromkeys (filelist st) = ["/t3/N00E999.DAT.gz"].
Proof. vm_compute. repeat split. Qed.

(** ** compressFiles beyond the claims *)

Section BuildFacts.

Variable cfg : config.
Variable origin : string -> option (list byte).
Variable gunzip : list byte -> option (list byte).
Variable now : Q.

#[local] Abbreviation add_tile' := (add_tile origin gunzip now).

(** A pass of the tile loop leaves every file that is on disk, the
    archive apart, as it is. *)
Lemma add_tile_keeps url_path zipthis fn w p :
  p <> zipthis -> is_Some (disk w !! p) ->
  disk (add_tile' url_path zipthis fn w).2 !! p = disk w !! p.
Proof.
  intros Hp Hpres.
  destruct (disk w !! fn) as [f|] eqn:Hfn.
  - apply add_tile_no_fetch; [rewrite Hfn; eauto|exact Hp].
  - assert (Hne : p <> fn) by (intros ->; rewrite Hfn in Hpres; destruct Hpres; discriminate).
    destruct url_path as [url|].
    + rewrite (add_tile_absent_origin _ _ _ _ _ _ _ Hfn). cbv zeta.
      destruct (origin (url +:+ PyStr.basename fn)) as [g|]; [|reflexivity].
      destruct (gunzip g) as [c|].
      * unfold zip_writestr. cbn [disk set_disk].
        destruct (_ !! zipthis) as [[t [b|es]]|]; cbn [snd disk set_disk];
          rewrite ?(lookup_insert_ne _ zipthis p) by congruence;
          apply lookup_insert_ne; congruence.
      * cbn [snd disk set_disk]. apply lookup_insert_ne. congruence.
    + rewrite (add_tile_absent_no_origin _ _ _ _ _ _ Hfn). reflexivity.
Qed.

Lemma tiles_keep url_path zipthis l p : forall w,
  p <> zipthis -> is_Some (disk w !! p) ->
  disk (for_each l (add_tile' url_path zipthis) w).2 !! p = disk w !! p.
Proof.
  induction l as [|fn l IH]; intros w Hp Hpres; [reflexivity|].
  cbn [for_each]. unfold bind.
  pose proof (add_tile_keeps url_path zipthis fn w p Hp Hpres) as Hstep.
  destruct (add_tile' url_path zipthis fn w) as [[[]|e] w1]; cbn [snd] in *.
  - rewrite IH; [exact Hstep|exact Hp|rewrite Hstep; exact Hpres].
  - exact Hstep.
Qed.

(** A pass that goes through has read the tile from disk, where it now
    is, and appended its entry. *)
Lemma add_tile_ok url_path zipthis fn w w1 es :
  is_archive zipthis es w ->
  add_tile' url_path zipthis fn w = (Ret tt, w1) ->
  fn <> zipthis /\
  exists c, entry_of gunzip w1 fn (PyStr.drop_last 3 (PyStr.basename fn), c) /\
            is_archive zipthis (es ++ [(PyStr.drop_last 3 (PyStr.basename fn), c)]) w1.
Proof.
  intros Harch Hrun.
  assert (Hne : fn <> zipthis).
  { intros ->. destruct Harch as [t Ht].
    rewrite (add_tile_is_zip _ _ _ _ _ _ _ _ _ Ht) in Hrun. discriminate. }
  split; [exact Hne|].
  assert (Hwrite : forall w0 c t b,
            is_archive zipthis es w0 -> disk w0 !! fn = Some (File t (Raw b)) ->
            gunzip b = Some c ->
            zip_writestr now zipthis (PyStr.drop_last 3 (PyStr.basename fn)) c w0 = (Ret tt, w1) ->
            exists c, entry_of gunzip w1 fn (PyStr.drop_last 3 (PyStr.basename fn), c) /\
                      is_archive zipthis (es ++ [(PyStr.drop_last 3 (PyStr.basename fn), c)]) w1).
  { intros w0 c t b Harch0 Hfn0 Hb Hz.
    destruct (zip_writestr_archive now zipthis (PyStr.drop_last 3 (PyStr.basename fn)) c w0 es
                Harch0) as (w' & Hz' & Harch' & _ & Hframe).
    assert (w' = w1) by congruence. subst w'.
    exists c. split; [|exact Harch'].
    split; [reflexivity|]. exists t, b. split; [|exact Hb].
    rewrite Hframe by exact Hne. exact Hfn0. }
  destruct (disk w !! fn) as [[t [b|es0]]|] eqn:Hfn.
  - rewrite (add_tile_present _ _ _ _ _ _ _ _ _ Hfn) in Hrun.
    destruct (gunzip b) as [c|] eqn:Hb; [|discriminate].
    apply (Hwrite w c t b Harch Hfn Hb Hrun).
  - rewrite (add_tile_is_zip _ _ _ _ _ _ _ _ _ Hfn) in Hrun. discriminate.
  - destruct url_path as [url|].
    + rewrite (add_tile_absent_origin _ _ _ _ _ _ _ Hfn) in Hrun. cbv zeta in Hrun.
      destruct (origin (url +:+ PyStr.basename fn)) as [g|]; [|discriminate].
      destruct (gunzip g) as [c|] eqn:Hg; [|discriminate].
      refine (Hwrite _ c now g _ _ Hg Hrun).
      * destruct Harch as [t Ht]. exists t. cbn [disk set_disk].
        rewrite lookup_insert_ne by exact Hne. exact Ht.
      * cbn [disk set_disk]. apply lookup_insert_eq.
    + rewrite (add_tile_absent_no_origin _ _ _ _ _ _ Hfn) in Hrun. discriminate.
Qed.

Lemma tiles_entries url_path zipthis l : forall w w' es,
  is_archive zipthis es w ->
  for_each l (add_tile' url_path zipthis) w = (Ret tt, w') ->
  exists es', is_archive zipthis (es ++ es') w' /\ Forall2 (entry_of gunzip w') l es'.
Proof.
  induction l as [|fn l IH]; intros w w' es Harch; cbn [for_each].
  - intros [= <-]. exists []. rewrite app_nil_r. split; [exact Harch|constructor].
  - unfold bind. destruct (add_tile' url_path zipthis fn w) as [[[]|e] w1] eqn:Hstep;
      [|discriminate].
    intros Hrest.
    destruct (add_tile_ok url_path zipthis fn w w1 es Harch Hstep)
      as (Hne & c & (Hname & t & b & Hfn & Hb) & Harch1).
    destruct (IH w1 w' _ Harch1 Hrest) as (es' & Harch' & Hall).
    exists ((PyStr.drop_last 3 (PyStr.basename fn), c) :: es').
    rewrite <- app_assoc in Harch'. split; [exact Harch'|].
    constructor; [|exact Hall].
    split; [reflexivity|]. exists t, b. split; [|exact Hb].
    replace w' with (for_each l (add_tile' url_path zipthis) w1).2 by (rewrite Hrest; reflexivity).
    rewrite tiles_keep; [exact Hfn|exact Hne|rewrite Hfn; eauto].
Qed.

End BuildFacts.

(** X10. When [compressFiles] returns [True] the archive at the
    destination holds one entry per tile of the list, in the order of
    the list: each is named after its tile without the [.gz] suffix and
    holds the decompressed bytes of the tile file that is on disk when
    the build is over. *)
Theorem compressFiles_success_entries (cfg : config)
  (origin : string -> option (list byte)) (gunzip : list byte -> option (list byte))
  (now : Q) (fileList : list string) (uuidkey : string) (version : Z) (w w' : world) :
  compressFiles cfg origin gunzip now fileList uuidkey version w = (Ret true, w') ->
  exists t es,
    disk w' !! zip_path cfg uuidkey = Some (File t (ZipArchive es)) /\
    Forall2 (entry_of gunzip w') fileList es.
Proof.
  rewrite compressFiles_unfold.
  destruct (url_path_of cfg version) as [url_path|]; [|discriminate].
  destruct (for_each fileList _ _) as [[[]|e] w1] eqn:Hloop; [|discriminate].
  intros [= <-].
  destruct (tiles_entries origin gunzip now url_path (zip_path cfg uuidkey) fileList _ w1 []
              (zip_open_archive now (zip_path cfg uuidkey) w) Hloop)
    as (es & [t Harch] & Hall).
  exists t, es. split; [exact Harch|exact Hall].
Qed.

Lemma compressFiles_success_entries_witness :
  let w' := (compressFiles Demo.cfg Demo.origin Demo.gunzip Demo.now
               ["/t1/N00E000.DAT.gz"; "/t3/N00E000.DAT.gz"] "u" 3 Demo.w0).2 in
  exists t es,
    disk w' !! zip_path Demo.cfg "u" = Some (File t (ZipArchive es)) /\
    Forall2 (entry_of Demo.gunzip w') ["/t1/N00E000.DAT.gz"; "/t3/N00E000.DAT.gz"] es.
Proof.
  intros w'.
  apply (compressFiles_success_entries Demo.cfg Demo.origin Demo.gunzip Demo.now
           ["/t1/N00E000.DAT.gz"; "/t3/N00E000.DAT.gz"] "u" 3 Demo.w0 w').
  vm_compute. reflexivity.
Defined.

(** X11. [compressFiles] returns a boolean exactly for the versions 1
    and 3: with one of them no exception leaves it, whatever the disk
    and the origin do during the build, and with any other it raises.
    It returns [True] only with the archive complete: as many entries
    as the list has tiles, and every tile of the list on disk. *)
Theorem compressFiles_always_returns (cfg : config)
  (origin : string -> option (list byte)) (gunzip : list byte -> option (list byte))
  (now : Q) (fileList : list string) (uuidkey : string) (version : Z) (w : world) :
  ((exists b w', compressFiles cfg origin gunzip now fileList uuidkey version w = (Ret b, w'))
   <-> version = 1 \/ version = 3) /\
  (forall w',
     compressFiles cfg origin gunzip now fileList uuidkey version w = (Ret true, w') ->
     (exists t es, disk w' !! zip_path cfg uuidkey = Some (File t (ZipArchive es)) /\
                   length es = length fileList) /\
     (forall fn, fn ∈ fileList -> is_Some (disk w' !! fn))).
Proof.
  split.
  - split.
    + intros (b & w' & Hrun). rewrite compressFiles_unfold in Hrun.
      unfold url_path_of in Hrun.
      destruct (version =? 1) eqn:H1; [left; apply Z.eqb_eq, H1|].
      destruct (version =? 3) eqn:H3; [right; apply Z.eqb_eq, H3|].
      discriminate.
    + intros Hver.
      assert (Hurl : exists url_path, url_path_of cfg version = Some url_path).
      { unfold url_path_of. destruct Hver as [-> | ->]; simpl; eauto. }
      destruct Hurl as [url_path Hurl].
      destruct (compressFiles_returns cfg origin gunzip now fileList uuidkey version url_path
                  w Hurl) as (b & w' & _ & Hrun & _).
      eauto.
  - intros w'. rewrite compressFiles_unfold.
    destruct (url_path_of cfg version) as [url_path|]; [|discriminate].
    destruct (for_each fileList _ _) as [[[]|e] w1] eqn:Hloop; [|discriminate].
    intros [= <-].
    destruct (tiles_entries origin gunzip now url_path (zip_path cfg uuidkey) fileList _ w1 []
                (zip_open_archive now (zip_path cfg uuidkey) w) Hloop)
      as (es & [t Harch] & Hall).
    split.
    + exists t, es. split; [exact Harch|]. symmetry. apply (Forall2_length _ _ _ Hall).
    + intros fn Hfn. apply list_elem_of_lookup in Hfn as [i Hi].
      destruct (Forall2_lookup_l _ _ _ _ _ Hall Hi) as (e & _ & _ & t' & b & Hdisk & _).
      rewrite Hdisk. eauto.
Qed.

(** X12. A version other than 1 and 3 leaves [url_path] unbound: the
    handler still scans (with the version 3 tile root), but
    [compressFiles] raises before it creates anything, and the call
    ends in HTTP 500 with the disk and the request log untouched. *)
Theorem unsupported_version_raises (cfg : config)
  (origin : string -> option (list byte)) (gunzip : list byte -> option (list byte))
  (add_offset : Q -> Q -> Q -> Q -> string -> Q * Q) (now : Q)
  (fuel : nat) (uuidkey : string) (listing : list string) (a : AreaRequest) (w : world) :
  area_version a <> 1 -> area_version a <> 3 ->
  (area_fuel a <= fuel)%nat ->
  tile_path_of cfg (area_version a) = tile_path3 cfg /\
  (forall fileList,
     compressFiles cfg origin gunzip now fileList uuidkey (area_version a) w =
       (Raise (UnboundLocalError "url_path"), w)) /\
  generate cfg origin gunzip add_offset now fuel uuidkey listing a w =
    Some (Raise (HTTPException 500 (UnboundLocalError "url_path")), w).
Proof.
  intros H1 H3 Hfuel.
  assert (Hurl : url_path_of cfg (area_version a) = None).
  { unfold url_path_of. rewrite (proj2 (Z.eqb_neq _ _) H1), (proj2 (Z.eqb_neq _ _) H3).
    reflexivity. }
  split; [|split].
  - unfold tile_path_of. rewrite (proj2 (Z.eqb_neq _ _) H1). reflexivity.
  - intros fileList. rewrite compressFiles_unfold, Hurl. reflexivity.
  - destruct (resolve_area_some cfg add_offset fuel a Hfuel) as (st & Hst & _).
    rewrite generate_unfold, Hst, respond_unfold, compressFiles_unfold, Hurl. reflexivity.
Qed.

Lemma unsupported_version_raises_witness :
  let a := Circle (GenerateRequest.Make (1 # 2) (1 # 2) 1 2) in
  tile_path_of Demo.cfg (area_version a) = tile_path3 Demo.cfg /\
  (forall fileList,
     compressFiles Demo.cfg Demo.origin Demo.gunzip Demo.now fileList "u" (area_version a)
       Demo.w0 = (Raise (UnboundLocalError "url_path"), Demo.w0)) /\
  generate Demo.cfg Demo.origin Demo.gunzip Demo.add_offset Demo.now 0 "u" ["old.zip"] a
    Demo.w0 = Some (Raise (HTTPException 500 (UnboundLocalError "url_path")), Demo.w0).
Proof.
  intros a.
  apply (unsupported_version_raises Demo.cfg Demo.origin Demo.gunzip Demo.add_offset
           Demo.now 0 "u" ["old.zip"] a Demo.w0); simpl; lia.
Defined.

Section LocalOnly.

Variable cfg : config.
Variable origin : string -> option (list byte).
Variable gunzip : list byte -> option (list byte).
Variable now : Q.

(** Without an origin a pass of the tile loop asks nothing and changes
    nothing but the archive. *)
Lemma add_tile_local_frame zipthis fn w :
  requested (add_tile origin gunzip now None zipthis fn w).2 = requested w /\
  forall p, p <> zipthis ->
            disk (add_tile origin gunzip now None zipthis fn w).2 !! p = disk w !! p.
Proof.
  destruct (disk w !! fn) as [f|] eqn:Hfn.
  - destruct (add_tile_no_fetch origin gunzip now None zipthis fn w) as (H1 & H2 & _);
      [rewrite Hfn; eauto|]. auto.
  - rewrite (add_tile_absent_no_origin _ _ _ _ _ _ Hfn). auto.
Qed.

Lemma tiles_local_missing zipthis fn l : forall w es,
  is_archive zipthis es w ->
  fn ∈ l ->
  fn = zipthis \/ disk w !! fn = None ->
  exists e w',
    for_each l (add_tile origin gunzip now None zipthis) w = (Raise e, w') /\
    requested w' = requested w /\
    forall p, p <> zipthis -> disk w' !! p = disk w !! p.
Proof.
  induction l as [|x l IH]; intros w es Harch Hin Hmiss.
  - apply elem_of_nil in Hin. contradiction.
  - cbn [for_each]. unfold bind.
    pose proof (add_tile_archive origin gunzip now None zipthis x w es Harch) as Hstep.
    destruct (add_tile_local_frame zipthis x w) as [Hreq Hframe].
    destruct (add_tile origin gunzip now None zipthis x w) as [[[]|e] w1]; cbn [snd] in *.
    + destruct Hstep as [[c Harch1] Hok].
      assert (Hin' : fn ∈ l).
      { apply elem_of_cons in Hin as [->|Hin]; [|exact Hin].
        exfalso. apply Hok. unfold tile_fails.
        destruct Hmiss as [->|Hnone].
        - destruct Harch as [t Ht]. rewrite Ht. exact I.
        - rewrite Hnone. exact I. }
      destruct (IH w1 _ Harch1 Hin') as (e & w' & Hrun & Hreq' & Hframe').
      { destruct Hmiss as [->|Hnone]; [left; reflexivity|].
        destruct (decide (fn = zipthis)) as [->|Hne]; [left; reflexivity|].
        right. rewrite Hframe by exact Hne. exact Hnone. }
      exists e, w'. split; [exact Hrun|]. split; [congruence|].
      intros p Hp. rewrite Hframe', Hframe by exact Hp. reflexivity.
    + exists e, w1. auto.
Qed.

End LocalOnly.

(** X13. In a configuration without origin for the version, one tile of
    the list missing from the cache makes the build fail: [compressFiles]
    returns [False], nothing is asked of any origin, and no file but
    the archive is created or changed. *)
Theorem local_only_missing_tile_fails (cfg : config)
  (origin : string -> option (list byte)) (gunzip : list byte -> option (list byte))
  (now : Q) (fileList : list string) (uuidkey : string) (version : Z)
  (fn : string) (w : world) :
  url_path_of cfg version = Some None ->
  fn ∈ fileList ->
  disk w !! fn = None ->
  exists w',
    compressFiles cfg origin gunzip now fileList uuidkey version w = (Ret false, w') /\
    requested w' = requested w /\
    forall p, p <> zip_path cfg uuidkey -> disk w' !! p = disk w !! p.
Proof.
  intros Hurl Hin Hnone. rewrite compressFiles_unfold, Hurl.
  destruct (tiles_local_missing origin gunzip now (zip_path cfg uuidkey) fn fileList
              (zip_open now (zip_path cfg uuidkey) w).2 []
              (zip_open_archive now (zip_path cfg uuidkey) w) Hin)
    as (e & w' & Hrun & Hreq & Hframe).
  { destruct (decide (fn = zip_path cfg uuidkey)) as [->|Hne]; [left; reflexivity|].
    right. cbn [snd zip_open disk set_disk]. rewrite lookup_insert_ne by congruence.
    exact Hnone. }
  rewrite Hrun. exists w'. split; [reflexivity|]. split; [exact Hreq|].
  intros p Hp. rewrite Hframe by exact Hp.
  cbn [snd zip_open disk set_disk]. apply lookup_insert_ne. congruence.
Qed.

Lemma local_only_missing_tile_fails_witness :
  exists w',
    compressFiles Demo.cfg Demo.origin Demo.gunzip Demo.now
      ["/t1/N00E000.DAT.gz"; "/t1/N00E001.DAT.gz"] "u" 1 Demo.w0 = (Ret false, w') /\
    requested w' = requested Demo.w0 /\
    forall p, p <> zip_path Demo.cfg "u" -> disk w' !! p = disk Demo.w0 !! p.
Proof.
  apply (local_only_missing_tile_fails Demo.cfg Demo.origin Demo.gunzip Demo.now
           ["/t1/N00E000.DAT.gz"; "/t1/N00E001.DAT.gz"] "u" 1 "/t1/N00E001.DAT.gz" Demo.w0).
  - reflexivity.
  - apply elem_of_cons. right. apply list_elem_of_here.
  - vm_compute. reflexivity.
Defined.

(** ** The sweep beyond the claims *)

Section SweepFacts.

Variable cfg : config.
Variable now : Q.

#[local] Abbreviation out f := (PyStr.path_join (output_path cfg) f).

Lemma sweep_cons f listing w :
  sweep cfg now (f :: listing) w =
  match sweep_entry cfg now f w with
  | (Ret _, w1) => sweep cfg now listing w1
  | (Raise e, w1) => (Raise e, w1)
  end.
Proof.
  unfold sweep. cbn [for_each]. unfold bind.
  destruct (sweep_entry cfg now f w) as [[[]|e] w1]; reflexivity.
Qed.

(** Whether it ends or aborts, the sweep only deletes, and only listed
    files that are expired. *)
Lemma sweep_frame listing : forall w,
  requested (sweep cfg now listing w).2 = requested w /\
  forall p,
    disk (sweep cfg now listing w).2 !! p = disk w !! p \/
    (disk (sweep cfg now listing w).2 !! p = None /\
     exists f file, f ∈ listing /\ p = out f /\
                    disk w !! p = Some file /\ expired now file = true).
Proof.
  induction listing as [|f listing IH]; intros w.
  - split; [reflexivity|]. intros p. left. reflexivity.
  - rewrite sweep_cons.
    destruct (disk w !! out f) as [file|] eqn:Hf.
    + rewrite (sweep_entry_present cfg now f w file Hf).
      destruct (expired now file) eqn:Hexp.
      * set (w1 := set_disk (delete (out f) (disk w)) w).
        destruct (IH w1) as [Hreq Hframe].
        split; [exact Hreq|]. intros p.
        destruct (decide (p = out f)) as [->|Hne].
        -- right. split.
           ++ destruct (Hframe (out f)) as [H|[H _]]; [|exact H].
              rewrite H. subst w1. cbn [disk set_disk]. apply lookup_delete_eq.
           ++ exists f, file. split; [apply list_elem_of_here|]. auto.
        -- destruct (Hframe p) as [H|[H (g & file' & Hg & -> & Hfile' & Hexp')]].
           ++ left. rewrite H. subst w1. cbn [disk set_disk].
              apply lookup_delete_ne. congruence.
           ++ right. split; [exact H|]. exists g, file'.
              split; [apply list_elem_of_further, Hg|]. split; [reflexivity|].
              split; [|exact Hexp'].
              subst w1. cbn [disk set_disk] in Hfile'.
              rewrite lookup_delete_ne in Hfile' by congruence. exact Hfile'.
      * destruct (IH w) as [Hreq Hframe].
        split; [exact Hreq|]. intros p.
        destruct (Hframe p) as [H|[H (g & file' & Hg & -> & Hfile' & Hexp')]].
        -- left. exact H.
        -- right. split; [exact H|]. exists g, file'.
           split; [apply list_elem_of_further, Hg|]. auto.
    + rewrite (sweep_entry_missing cfg now f w Hf). split; [reflexivity|].
      intros p. left. reflexivity.
Qed.

End SweepFacts.

(** X14. Whether the sweep runs to the end or stops at a vanished
    entry, it never contacts the origin, never creates or changes a
    file, and removes nothing but files that are named in the listing
    and were last modified more than 24 hours before the clock reading:
    tiles and fresh archives are out of its reach. *)
Theorem sweep_only_deletes_expired_listed (cfg : config) (now : Q)
  (listing : list string) (w : world) :
  let w' := (sweep cfg now listing w).2 in
  requested w' = requested w /\
  (forall p file, disk w' !! p = Some file -> disk w !! p = Some file) /\
  (forall p file, disk w !! p = Some file -> disk w' !! p = None ->
     (st_mtime file < now - inject_Z 86400)%Q /\
     exists f, f ∈ listing /\ p = PyStr.path_join (output_path cfg) f).
Proof.
  intros w'. destruct (sweep_frame cfg now listing w) as [Hreq Hframe]. fold w' in Hreq, Hframe.
  split; [exact Hreq|]. split.
  - intros p file Hp. destruct (Hframe p) as [H|[H _]]; congruence.
  - intros p file Hp Hgone.
    destruct (Hframe p) as [H|[_ (f & file' & Hf & -> & Hfile' & Hexp)]]; [congruence|].
    assert (file' = file) by congruence. subst file'.
    split; [|eauto].
    unfold expired, Qlt_bool in Hexp. apply Bool.negb_true_iff, Qle_bool_false in Hexp.
    exact Hexp.
Qed.

(** X15. Retention: on a listing without repeats whose entries are all
    on disk the sweep runs to the end; a listed file goes exactly when
    its modification time is more than 24 hours before the clock
    reading, a file stamped exactly 24 hours before is kept, and every
    path the listing does not name is as it was. *)
Theorem sweep_retention (cfg : config) (now : Q) (listing : list string) (w : world) :
  NoDup listing ->
  (forall f, f ∈ listing -> is_Some (disk w !! PyStr.path_join (output_path cfg) f)) ->
  exists w',
    sweep cfg now listing w = (Ret tt, w') /\
    (forall f file,
       f ∈ listing -> disk w !! PyStr.path_join (output_path cfg) f = Some file ->
       disk w' !! PyStr.path_join (output_path cfg) f =
         if Qlt_bool (st_mtime file) (now - inject_Z 86400)%Q then None else Some file) /\
    (forall p, (forall f, f ∈ listing -> p <> PyStr.path_join (output_path cfg) f) ->
               disk w' !! p = disk w !! p) /\
    (forall d, Qlt_bool (st_mtime (File (now - inject_Z 86400)%Q d)) (now - inject_Z 86400)%Q
               = false).
Proof.
  intros Hnd Hall.
  destruct (sweep_returns cfg now listing w Hnd Hall) as (w' & Hrun & _ & Hfresh & _ & Hold).
  exists w'. split; [exact Hrun|]. split; [|split].
  - intros f file Hf Hfile.
    change (Qlt_bool (st_mtime file) (now - inject_Z 86400)%Q) with (expired now file).
    destruct (expired now file) eqn:Hexp.
    + apply (Hold f file Hf Hfile Hexp).
    + apply (Hfresh _ file Hfile Hexp).
  - intros p Hp. destruct (sweep_frame cfg now listing w) as [_ Hframe].
    rewrite Hrun in Hframe. cbn [snd] in Hframe.
    destruct (Hframe p) as [H|[_ (f & file & Hf & -> & _)]]; [exact H|].
    exfalso. apply (Hp f Hf). reflexivity.
  - intros d. unfold Qlt_bool. cbn [st_mtime].
    apply Bool.negb_false_iff, Qle_bool_iff, Qle_refl.
Qed.

Lemma sweep_retention_witness :
  exists w',
    sweep Demo.cfg Demo.now ["old.zip"] Demo.w0 = (Ret tt, w') /\
    (forall f file,
       f ∈ ["old.zip"] -> disk Demo.w0 !! PyStr.path_join (output_path Demo.cfg) f = Some file ->
       disk w' !! PyStr.path_join (output_path Demo.cfg) f =
         if Qlt_bool (st_mtime file) (Demo.now - inject_Z 86400)%Q then None else Some file) /\
    (forall p, (forall f, f ∈ ["old.zip"] -> p <> PyStr.path_join (output_path Demo.cfg) f) ->
               disk w' !! p = disk Demo.w0 !! p) /\
    (forall d, Qlt_bool (st_mtime (File (Demo.now - inject_Z 86400)%Q d))
                 (Demo.now - inject_Z 86400)%Q = false).
Proof.
  apply (sweep_retention Demo.cfg Demo.now ["old.zip"] Demo.w0).
  - apply NoDup_singleton.
  - intros f Hf. apply list_elem_of_singleton in Hf as ->. vm_compute. eauto.
Defined.

(** An archive of 25 hours goes, an archive of one hour stays. *)
Example sweep_25h_and_1h :
  let now := inject_Z 1000000 in
  let w := {| disk := {[ "/out/a.zip" := File (now - inject_Z (25 * 3600)) (ZipArchive []);
                         "/out/b.zip" := File (now - inject_Z 3600) (ZipArchive []) ]};
              requested := [] |} in
  let r := sweep Demo.cfg now ["a.zip"; "b.zip"] w in
  r.1 = Ret tt /\
  disk r.2 !! "/out/a.zip" = None /\
  is_Some (disk r.2 !! "/out/b.zip").
Proof. vm_compute. repeat split. eauto. Qed.

(** ** What a build can touch *)

Lemma writes_stamped_refl now w : writes_stamped now w w.
Proof. intros p. left. reflexivity. Qed.

Lemma writes_stamped_trans now w1 w2 w3 :
  writes_stamped now w1 w2 -> writes_stamped now w2 w3 -> writes_stamped now w1 w3.
Proof.
  intros H12 H23 p. destruct (H23 p) as [H|H]; [|right; exact H].
  rewrite H. apply H12.
Qed.

Lemma writes_stamped_insert now w p d :
  writes_stamped now w (set_disk (<[p := File now d]> (disk w)) w).
Proof.
  intros q. cbn [disk set_disk]. destruct (decide (p = q)) as [->|Hne].
  - right. exists d. apply lookup_insert_eq.
  - left. apply lookup_insert_ne, Hne.
Qed.

Section FrameFacts.

Variable cfg : config.
Variable origin : string -> option (list byte).
Variable gunzip : list byte -> option (list byte).
Variable now : Q.

Lemma zip_writestr_frame p name c w :
  writes_stamped now w (zip_writestr now p name c w).2 /\
  requested (zip_writestr now p name c w).2 = requested w.
Proof.
  unfold zip_writestr. destruct (disk w !! p) as [[t [b|es]]|]; cbn [snd];
    split; try reflexivity; try apply writes_stamped_refl.
  apply writes_stamped_insert.
Qed.

(** A pass of the tile loop deletes nothing, stamps what it writes, and
    asks the origin for nothing but this tile. *)
Lemma add_tile_frame url_path zipthis fn w :
  writes_stamped now w (add_tile origin gunzip now url_path zipthis fn w).2 /\
  (requested (add_tile origin gunzip now url_path zipthis fn w).2 = requested w \/
   exists url, url_path = Some url /\
               requested (add_tile origin gunzip now url_path zipthis fn w).2 =
                 (url +:+ PyStr.basename fn) :: requested w).
Proof.
  destruct (disk w !! fn) as [[t [b|es]]|] eqn:Hfn.
  - rewrite (add_tile_present _ _ _ _ _ _ _ _ _ Hfn). destruct (gunzip b) as [c|].
    + destruct (zip_writestr_frame zipthis (PyStr.drop_last 3 (PyStr.basename fn)) c w). auto.
    + split; [apply writes_stamped_refl|auto].
  - rewrite (add_tile_is_zip _ _ _ _ _ _ _ _ _ Hfn). split; [apply writes_stamped_refl|auto].
  - destruct url_path as [url|].
    + rewrite (add_tile_absent_origin _ _ _ _ _ _ _ Hfn). cbv zeta.
      destruct (origin (url +:+ PyStr.basename fn)) as [g|].
      * set (w1 := {| disk := disk w; requested := (url +:+ PyStr.basename fn) :: requested w |}).
        set (w2 := set_disk (<[fn := File now (Raw g)]> (disk w)) w1).
        assert (H12 : writes_stamped now w w2).
        { intros q. subst w2. cbn [disk set_disk]. destruct (decide (fn = q)) as [->|Hne].
          - right. eexists. apply lookup_insert_eq.
          - left. apply lookup_insert_ne, Hne. }
        destruct (gunzip g) as [c|].
        -- destruct (zip_writestr_frame zipthis (PyStr.drop_last 3 (PyStr.basename fn)) c w2)
             as [H23 Hreq].
           split; [apply (writes_stamped_trans now w w2 _ H12 H23)|].
           right. exists url. split; [reflexivity|]. rewrite Hreq. reflexivity.
        -- split; [exact H12|]. right. exists url. auto.
      * split; [intros q; left; reflexivity|]. right. exists url. auto.
    + rewrite (add_tile_absent_no_origin _ _ _ _ _ _ Hfn).
      split; [apply writes_stamped_refl|auto].
Qed.

Lemma tiles_frame url_path zipthis l : forall w,
  writes_stamped now w (for_each l (add_tile origin gunzip now url_path zipthis) w).2 /\
  exists new,
    requested (for_each l (add_tile origin gunzip now url_path zipthis) w).2
      = new ++ requested w /\
    forall u, u ∈ new ->
              exists fn url, fn ∈ l /\ url_path = Some url /\ u = url +:+ PyStr.basename fn.
Proof.
  induction l as [|fn l IH]; intros w.
  - split; [apply writes_stamped_refl|]. exists []. split; [reflexivity|].
    intros u Hu. apply elem_of_nil in Hu. contradiction.
  - cbn [for_each]. unfold bind.
    destruct (add_tile_frame url_path zipthis fn w) as [Hw Hreq].
    destruct (add_tile origin gunzip now url_path zipthis fn w) as [[[]|e] w1]; cbn [snd] in *.
    + destruct (IH w1) as (Hw' & new & Hnew & Hall).
      split; [apply (writes_stamped_trans now w w1 _ Hw Hw')|].
      destruct Hreq as [Hreq|(url & -> & Hreq)].
      * exists new. split; [congruence|]. intros u Hu.
        destruct (Hall u Hu) as (fn' & url & H1 & H2 & H3).
        exists fn', url. split; [apply list_elem_of_further, H1|auto].
      * exists (new ++ [url +:+ PyStr.basename fn]). split.
        -- rewrite Hnew, Hreq, <- app_assoc. reflexivity.
        -- intros u Hu. apply elem_of_app in Hu as [Hu|Hu].
           ++ destruct (Hall u Hu) as (fn' & url' & H1 & H2 & H3).
              exists fn', url'. split; [apply list_elem_of_further, H1|auto].
           ++ apply list_elem_of_singleton in Hu as ->.
              exists fn, url. split; [apply list_elem_of_here|auto].
    + split; [exact Hw|]. destruct Hreq as [Hreq|(url & -> & Hreq)].
      * exists []. split; [exact Hreq|]. intros u Hu. apply elem_of_nil in Hu. contradiction.
      * exists [url +:+ PyStr.basename fn]. split; [exact Hreq|].
        intros u Hu. apply list_elem_of_singleton in Hu as ->.
        exists fn, url. split; [apply list_elem_of_here|auto].
Qed.

Lemma compressFiles_frame fileList uuidkey version w :
  writes_stamped now w (compressFiles cfg origin gunzip now fileList uuidkey version w).2 /\
  exists new,
    requested (compressFiles cfg origin gunzip now fileList uuidkey version w).2
      = new ++ requested w /\
    forall u, u ∈ new ->
              exists fn url, fn ∈ fileList /\ url_path_of cfg version = Some (Some url) /\
                             u = url +:+ PyStr.basename fn.
Proof.
  rewrite compressFiles_unfold.
  destruct (url_path_of cfg version) as [url_path|].
  - destruct (tiles_frame url_path (zip_path cfg uuidkey) fileList
                (zip_open now (zip_path cfg uuidkey) w).2) as (Hw & new & Hnew & Hall).
    assert (H0 : writes_stamped now w (zip_open now (zip_path cfg uuidkey) w).2).
    { apply writes_stamped_insert. }
    destruct (for_each fileList _ _) as [[[]|e] w1]; cbn [snd] in *;
      (split; [apply (writes_stamped_trans now w _ w1 H0 Hw)|];
       exists new; split; [exact Hnew|];
       intros u Hu; destruct (Hall u Hu) as (fn & url & H1 & -> & H3); eauto).
  - split; [apply writes_stamped_refl|]. exists []. split; [reflexivity|].
    intros u Hu. apply elem_of_nil in Hu. contradiction.
Qed.

End FrameFacts.

(** X16. Whatever its result, [compressFiles] deletes no file; every
    file it creates or changes carries the clock reading of the
    request; and the only requests it adds to the log are for tiles of
    its list, at the origin configured for the version. *)
Theorem compressFiles_touches_only_stamped (cfg : config)
  (origin : string -> option (list byte)) (gunzip : list byte -> option (list byte))
  (now : Q) (fileList : list string) (uuidkey : string) (version : Z) (w : world) :
  let w' := (compressFiles cfg origin gunzip now fileList uuidkey version w).2 in
  (forall p f, disk w !! p = Some f -> is_Some (disk w' !! p)) /\
  (forall p, disk w' !! p = disk w !! p \/ exists d, disk w' !! p = Some (File now d)) /\
  exists new,
    requested w' = new ++ requested w /\
    forall u, u ∈ new ->
              exists fn url, fn ∈ fileList /\ url_path_of cfg version = Some (Some url) /\
                             u = url +:+ PyStr.basename fn.
Proof.
  intros w'.
  destruct (compressFiles_frame cfg origin gunzip now fileList uuidkey version w) as [Hw Hreq].
  fold w' in Hw, Hreq. split; [|split; [exact Hw|exact Hreq]].
  intros p f Hp. destruct (Hw p) as [H|[d H]]; rewrite H; eauto.
Qed.

(** ** The handlers end to end *)




Section EndToEnd.

Variable cfg : config.
Variable origin : string -> option (list byte).
Variable gunzip : list byte -> option (list byte).
Variable add_offset : Q -> Q -> Q -> Q -> string -> Q * Q.
Variable now : Q.

#[local] Abbreviation out f := (PyStr.path_join (output_path cfg) f).






End EndToEnd.



(** The same from a rectangle with exact steps: the two cells from
    latitude 0.5 to 1.25 are scanned, both tiles are in the cache, and
    the archive holds them in the order of the scan. *)
Example rectangle_from_cache :
  let a := Rectangle (GenerateRectangleRequest.Make (1 # 2) (3 # 2) (1 # 2) (5 # 4) 1) in
  let w := set_disk (<["/t1/N01E000.DAT.gz" := File (inject_Z 600) (Raw [x1f; x02])]>
                       (disk Demo.w0)) Demo.w0 in
  let r := generate Demo.cfg Demo.origin Demo.gunzip Demo.add_offset Demo.now 3 "u"
             ["old.zip"; "u.zip"] a w in
  steps_exact a /\
  (exists w', r = Some (Ret (response_ok "u" None), w')) /\
  disk (world_after r w) !! "/out/u.zip" =
    Some (File Demo.now (ZipArchive [("N00E000.DAT", [x01]); ("N01E000.DAT", [x02])])) /\
  disk (world_after r w) !! "/out/old.zip" = None.
Proof.
  intros a w r. split; [|split; [|split]].
  - split; [|split; [|split]].
    + exists (2 ^ 43). split; [vm_compute; reflexivity|reflexivity].
    + exists (2 ^ 43). split; [vm_compute; reflexivity|reflexivity].
    + vm_compute. discriminate.
    + vm_compute. discriminate.
  - eexists. vm_compute. reflexivity.
  - vm_compute. reflexivity.
  - vm_compute. reflexivity.
Qed.



(** * The form routes *)

Lemma form_input_ok_spec (lat lon : Q) (version : Z) :
  form_input_ok lat lon version = true <->
  (inject_Z (-90) <= lat)%Q /\ (lat <= inject_Z 90)%Q /\
  (inject_Z (-180) <= lon)%Q /\ (lon <= inject_Z 180)%Q /\
  (version = 1 \/ version = 3).
Proof.
  unfold form_input_ok, form_input_refused.
  rewrite Bool.negb_true_iff, !Bool.orb_false_iff, !Bool.negb_false_iff,
    !in_range_spec, version_ok_spec.
  tauto.
Qed.

Lemma clamp_radius_bounds (radius : Z) : 1 <= clamp radius 1 400 <= 400.
Proof. unfold clamp. lia. Qed.

(** After the check of the form and the clamp, the constructor of the
    request cannot refuse. *)
Lemma form_request_accepted (lat lon : Q) (radius version : Z) :
  form_input_ok lat lon version = true ->
  new_GenerateRequest lat lon (clamp radius 1 400) version =
    Some (GenerateRequest.Make lat lon (clamp radius 1 400) version).
Proof.
  intros Hok. apply form_input_ok_spec in Hok as (H1 & H2 & H3 & H4 & H5).
  pose proof (clamp_radius_bounds radius) as [Hr1 Hr2].
  unfold new_GenerateRequest.
  match goal with |- context [if ?c then _ else _] => destruct c eqn:Hc end;
    [reflexivity|].
  rewrite <- Bool.not_true_iff_false in Hc. exfalso. apply Hc.
  rewrite !Bool.andb_true_iff, !in_range_spec, !Z.leb_le, version_ok_spec. tauto.
Qed.

Lemma rectangle_form_input_ok_spec (min_lat max_lat min_lon max_lon : Q) (version : Z) :
  rectangle_form_input_ok min_lat max_lat min_lon max_lon version = true <->
  GenerateRectangleRequest.valid
    (GenerateRectangleRequest.Make min_lat max_lat min_lon max_lon version).
Proof.
  unfold rectangle_form_input_ok, rectangle_form_input_refused,
    GenerateRectangleRequest.valid.
  cbn [GenerateRectangleRequest.min_lat GenerateRectangleRequest.max_lat
       GenerateRectangleRequest.min_lon GenerateRectangleRequest.max_lon
       GenerateRectangleRequest.version].
  rewrite Bool.negb_true_iff, !Bool.orb_false_iff, !Bool.negb_false_iff,
    !in_range_spec, version_ok_spec, !Qle_bool_false.
  tauto.
Qed.

Lemma rectangle_form_request_accepted (min_lat max_lat min_lon max_lon : Q) (version : Z) :
  rectangle_form_input_ok min_lat max_lat min_lon max_lon version = true ->
  new_GenerateRectangleRequest min_lat max_lat min_lon max_lon version =
    Some (GenerateRectangleRequest.Make min_lat max_lat min_lon max_lon version).
Proof.
  intros Hok. unfold rectangle_form_input_ok, rectangle_form_input_refused in Hok.
  rewrite Bool.negb_true_iff, !Bool.orb_false_iff, !Bool.negb_false_iff in Hok.
  destruct Hok as ((((((H1 & H2) & H3) & H4) & H5) & H6) & H7).
  unfold new_GenerateRectangleRequest. rewrite H1, H2, H3, H4, H5, H6, H7. reflexivity.
Qed.

Lemma new_GenerateRectangleRequest_fields (min_lat max_lat min_lon max_lon : Q)
  (version : Z) (r : GenerateRectangleRequest.t) :
  new_GenerateRectangleRequest min_lat max_lat min_lon max_lon version = Some r ->
  r = GenerateRectangleRequest.Make min_lat max_lat min_lon max_lon version.
Proof.
  unfold new_GenerateRectangleRequest.
  match goal with |- context [if ?c then _ else _] => destruct c end; congruence.
Qed.

Section FormFacts.

Variable cfg : config.
Variable origin : string -> option (list byte).
Variable gunzip : list byte -> option (list byte).
Variable add_offset : Q -> Q -> Q -> Q -> string -> Q * Q.
Variable now : Q.

#[local] Abbreviation generate_form' := (generate_form cfg origin gunzip add_offset now).
#[local] Abbreviation generate_api' := (generate_api cfg origin gunzip add_offset now).
#[local] Abbreviation generate_rectangle_form' := (generate_rectangle_form cfg origin gunzip now).
#[local] Abbreviation generate_rectangle_api' := (generate_rectangle_api cfg origin gunzip now).

Lemma generate_form_unfold uuidkey listing lat lon radius version w :
  generate_form' uuidkey listing lat lon radius version w =
  if form_input_ok lat lon version then
    page_of_outcome "Error with input"
      (generate_api' uuidkey listing
         (GenerateRequest.Make lat lon (clamp radius 1 400) version) w)
  else (Ret (error_page "Error with input"), w).
Proof.
  unfold generate_form, or_error_page, try_except.
  destruct (form_input_ok lat lon version) eqn:Hok; pose proof Hok as Href;
    unfold form_input_ok in Href;
    [apply Bool.negb_true_iff in Href|apply Bool.negb_false_iff in Href];
    rewrite Href; [|reflexivity].
  cbv zeta. rewrite (form_request_accepted lat lon radius version Hok).
  unfold bind, page_of_outcome.
  destruct (generate_api' uuidkey listing _ w) as [[r|e] w']; reflexivity.
Qed.

Lemma generate_rectangle_form_unfold fuel uuidkey listing min_lat max_lat min_lon max_lon
  version w :
  generate_rectangle_form' fuel uuidkey listing min_lat max_lat min_lon max_lon version w =
  if rectangle_form_input_ok min_lat max_lat min_lon max_lon version then
    page_of_outcome "Error with rectangle input parameters" <$>
      generate_rectangle_api' fuel uuidkey listing
        (GenerateRectangleRequest.Make min_lat max_lat min_lon max_lon version) w
  else Some (Ret (error_page "Error with rectangle input parameters"), w).
Proof.
  unfold generate_rectangle_form.
  destruct (rectangle_form_input_ok min_lat max_lat min_lon max_lon version) eqn:Hok;
    pose proof Hok as Href; unfold rectangle_form_input_ok in Href;
    [apply Bool.negb_true_iff in Href|apply Bool.negb_false_iff in Href];
    rewrite Href; [|reflexivity].
  cbv zeta.
  rewrite (rectangle_form_request_accepted _ _ _ _ _ Hok).
  destruct (generate_rectangle_api' fuel uuidkey listing _ w) as [[[r|e] w']|]; reflexivity.
Qed.

End FormFacts.

(** X19. No exception leaves a form route: whatever the input, the
    disk, the origin and the listing, [generate_form] returns a page,
    and so does [generate_rectangle_form], whose scan ends within the
    fuel of its bounds. *)
Theorem form_routes_never_raise (cfg : config)
  (origin : string -> option (list byte)) (gunzip : list byte -> option (list byte))
  (add_offset : Q -> Q -> Q -> Q -> string -> Q * Q) (now : Q)
  (uuidkey : string) (listing : list string) (w : world) :
  (forall lat lon radius version,
     exists page w',
       generate_form cfg origin gunzip add_offset now uuidkey listing lat lon radius version w
         = (Ret page, w')) /\
  (forall min_lat max_lat min_lon max_lon version,
     exists page w',
       generate_rectangle_form cfg origin gunzip now
         (rect_fuel min_lat max_lat min_lon max_lon) uuidkey listing
         min_lat max_lat min_lon max_lon version w = Some (Ret page, w')).
Proof.
  split.
  - intros lat lon radius version. rewrite generate_form_unfold.
    destruct (form_input_ok lat lon version); [|eauto].
    unfold page_of_outcome.
    destruct (generate_api cfg origin gunzip add_offset now uuidkey listing _ w)
      as [[r|e] w']; eauto.
  - intros min_lat max_lat min_lon max_lon version.
    rewrite generate_rectangle_form_unfold.
    destruct (rectangle_form_input_ok min_lat max_lat min_lon max_lon version); [|eauto].
    unfold generate_rectangle_api.
    cbn [GenerateRectangleRequest.min_lat GenerateRectangleRequest.max_lat
         GenerateRectangleRequest.min_lon GenerateRectangleRequest.max_lon
         GenerateRectangleRequest.version].
    destruct (rect_scan_some (tile_path_of cfg version)
                (rect_fuel min_lat max_lat min_lon max_lon) min_lat max_lat min_lon max_lon)
      as (st & -> & _); [lia|].
    cbn [fmap option_fmap option_map]. unfold page_of_outcome.
    destruct (as_http_500 _ w) as [[r|e] w']; eauto.
Qed.

(** X20. [generate_form] passes its input on exactly when the request
    with the clamped radius is one the model accepts, so the constructor
    never refuses inside the route.  An accepted input is answered with
    the page of the handler's response, or with the page "Error with
    input" when the handler raised; a refused one with that page and
    the world untouched. *)
Theorem generate_form_reaches_handler (cfg : config)
  (origin : string -> option (list byte)) (gunzip : list byte -> option (list byte))
  (add_offset : Q -> Q -> Q -> Q -> string -> Q * Q) (now : Q)
  (uuidkey : string) (listing : list string) (lat lon : Q) (radius version : Z) (w : world) :
  let req := GenerateRequest.Make lat lon (clamp radius 1 400) version in
  (form_input_ok lat lon version = true <-> GenerateRequest.valid req) /\
  (form_input_ok lat lon version = true <->
   new_GenerateRequest lat lon (clamp radius 1 400) version = Some req) /\
  generate_form cfg origin gunzip add_offset now uuidkey listing lat lon radius version w =
    if form_input_ok lat lon version then
      match generate_api cfg origin gunzip add_offset now uuidkey listing req w with
      | (Ret response, w') => (Ret (page_of_response response), w')
      | (Raise _, w') => (Ret (error_page "Error with input"), w')
      end
    else (Ret (error_page "Error with input"), w).
Proof.
  intros req. pose proof (clamp_radius_bounds radius) as Hr.
  assert (Hvalid : form_input_ok lat lon version = true <-> GenerateRequest.valid req).
  { rewrite form_input_ok_spec. unfold GenerateRequest.valid. subst req.
    cbn [GenerateRequest.lat GenerateRequest.lon GenerateRequest.radius
         GenerateRequest.version]. tauto. }
  split; [exact Hvalid|]. split.
  - split; [apply form_request_accepted|]. intros Hnew.
    apply form_input_ok_spec. unfold new_GenerateRequest in Hnew.
    match type of Hnew with context [if ?c then _ else _] => destruct c eqn:Hc end;
      [|discriminate].
    rewrite !Bool.andb_true_iff, !in_range_spec, version_ok_spec in Hc. tauto.
  - apply generate_form_unfold.
Qed.

(** X21. The radius of the form saturates: [generate_form] does with a
    radius what it does with the radius clamped to 1..400, so every
    radius below 1 is served as 1 and every radius above 400 as 400,
    where the API route refuses both. *)
Theorem generate_form_radius_saturates (cfg : config)
  (origin : string -> option (list byte)) (gunzip : list byte -> option (list byte))
  (add_offset : Q -> Q -> Q -> Q -> string -> Q * Q) (now : Q)
  (uuidkey : string) (listing : list string) (lat lon : Q) (radius version : Z) (w : world) :
  generate_form cfg origin gunzip add_offset now uuidkey listing lat lon radius version w =
    generate_form cfg origin gunzip add_offset now uuidkey listing lat lon
      (clamp radius 1 400) version w /\
  (radius <= 1 ->
   generate_form cfg origin gunzip add_offset now uuidkey listing lat lon radius version w =
     generate_form cfg origin gunzip add_offset now uuidkey listing lat lon 1 version w) /\
  (400 <= radius ->
   generate_form cfg origin gunzip add_offset now uuidkey listing lat lon radius version w =
     generate_form cfg origin gunzip add_offset now uuidkey listing lat lon 400 version w) /\
  (radius < 1 \/ 400 < radius -> new_GenerateRequest lat lon radius version = None).
Proof.
  assert (Heq : forall r1 r2, clamp r1 1 400 = clamp r2 1 400 ->
            generate_form cfg origin gunzip add_offset now uuidkey listing lat lon r1 version w =
            generate_form cfg origin gunzip add_offset now uuidkey listing lat lon r2 version w).
  { intros r1 r2 H. rewrite !generate_form_unfold, H. reflexivity. }
  split; [|split; [|split]].
  - apply Heq. unfold clamp. lia.
  - intros H. apply Heq. unfold clamp. lia.
  - intros H. apply Heq. unfold clamp. lia.
  - intros H. unfold new_GenerateRequest.
    match goal with |- context [if ?c then _ else _] => destruct c eqn:Hc end;
      [|reflexivity].
    rewrite !Bool.andb_true_iff, !Z.leb_le in Hc. lia.
Qed.

(** X22. [generate_rectangle_form] passes its input on exactly when the
    model accepts the rectangle: the check of the route and the
    validators of [GenerateRectangleRequest] agree, equal bounds are
    refused by both, and the constructor never refuses inside the
    route.  An accepted input is answered with the page of the
    handler's response, or with the error page when the handler raised;
    a refused one with the error page and the world untouched. *)
Theorem generate_rectangle_form_reaches_handler (cfg : config)
  (origin : string -> option (list byte)) (gunzip : list byte -> option (list byte))
  (now : Q) (fuel : nat) (uuidkey : string) (listing : list string)
  (min_lat max_lat min_lon max_lon : Q) (version : Z) (w : world) :
  let req := GenerateRectangleRequest.Make min_lat max_lat min_lon max_lon version in
  let msg := "Error with rectangle input parameters"%string in
  (rectangle_form_input_ok min_lat max_lat min_lon max_lon version = true <->
   GenerateRectangleRequest.valid req) /\
  (rectangle_form_input_ok min_lat max_lat min_lon max_lon version = true <->
   new_GenerateRectangleRequest min_lat max_lat min_lon max_lon version = Some req) /\
  ((min_lat == max_lat)%Q \/ (min_lon == max_lon)%Q ->
   rectangle_form_input_ok min_lat max_lat min_lon max_lon version = false) /\
  generate_rectangle_form cfg origin gunzip now fuel uuidkey listing
    min_lat max_lat min_lon max_lon version w =
    if rectangle_form_input_ok min_lat max_lat min_lon max_lon version then
      match generate_rectangle_api cfg origin gunzip now fuel uuidkey listing req w with
      | Some (Ret response, w') => Some (Ret (page_of_response response), w')
      | Some (Raise _, w') => Some (Ret (error_page msg), w')
      | None => None
      end
    else Some (Ret (error_page msg), w).
Proof.
  intros req msg. split; [apply rectangle_form_input_ok_spec|]. split; [|split].
  - split; [apply rectangle_form_request_accepted|]. intros Hnew.
    unfold new_GenerateRectangleRequest in Hnew.
    unfold rectangle_form_input_ok, rectangle_form_input_refused.
    match type of Hnew with context [if ?c then _ else _] => destruct c eqn:Hc end;
      [|discriminate].
    rewrite !Bool.andb_true_iff, !Bool.negb_true_iff in Hc.
    destruct Hc as ((((((H1 & H2) & H3) & H4) & H5) & H6) & H7).
    rewrite H1, H2, H3, H4, H5, H6, H7. reflexivity.
  - intros Heq. apply Bool.not_true_iff_false. intros Hok.
    apply rectangle_form_input_ok_spec in Hok.
    destruct Hok as (_ & _ & _ & _ & _ & _ & _ & _ & _ & Hlat & Hlon).
    cbn [GenerateRectangleRequest.min_lat GenerateRectangleRequest.max_lat
         GenerateRectangleRequest.min_lon GenerateRectangleRequest.max_lon] in Hlat, Hlon.
    destruct Heq as [Heq|Heq]; rewrite Heq in *;
      [apply (Qlt_irrefl max_lat Hlat)|apply (Qlt_irrefl max_lon Hlon)].
  - rewrite generate_rectangle_form_unfold.
    destruct (rectangle_form_input_ok min_lat max_lat min_lon max_lon version);
      [|reflexivity].
    fold req.
    destruct (generate_rectangle_api cfg origin gunzip now fuel uuidkey listing req w)
      as [[[r|e] w']|]; reflexivity.
Qed.



(** The form routes on the demo store: an accepted request gets the
    page with the download address; a latitude of 91 degrees and a
    rectangle with equal latitudes get the error pages, and the world
    is as before. *)
Example form_pages :
  (generate_form Demo.cfg Demo.origin Demo.gunzip Demo.add_offset Demo.now "u"
     ["old.zip"] (1 # 2) (1 # 2) 0 1 Demo.w0).1 =
    Ret (Template "generate.html"
           [("urlkey", CStr "/userRequestTerrain/u.zip"); ("uuidkey", CStr "u");
            ("outsideLat", CNone)]) /\
  generate_form Demo.cfg Demo.origin Demo.gunzip Demo.add_offset Demo.now "u"
    ["old.zip"] (91 # 1) (1 # 2) 1 1 Demo.w0 =
    (Ret (error_page "Error with input"), Demo.w0) /\
  generate_rectangle_form Demo.cfg Demo.origin Demo.gunzip Demo.now 5 "u"
    ["old.zip"] (1 # 2) (1 # 2) 0 1 1 Demo.w0 =
    Some (Ret (error_page "Error with rectangle input parameters"), Demo.w0).
Proof. vm_compute. repeat split. Qed.
